(** * IoT honeypot for the ESP32: attack logger, HTTP service and supervisor

    A shallow embedding of
    - [main/logging/attack_logger.c]  (ring buffer of attack records, JSON),
    - [main/services/http_service.c]  (fake admin panel, credential capture),
    - [main/honeypot.c]               (statistics kept by the supervisor),
    together with the properties the specification states about them.

    Conventions.  A C string is a [string] (the bytes before the terminating
    NUL).  A pointer that the code compares with [NULL] is an [option].
    [size_t] indices into the 100-slot ring are natural numbers: every one of
    them stays at or below [MAX_LOG_ENTRIES], so no unsigned wrap-around is in
    reach.  [uint32_t] counters are integers reduced modulo 2^32 where the
    code increments them.  Calls that only print to the console are left out
    unless a property speaks about them. *)

From Stdlib Require Import ZArith String Ascii Lia ZifyNat.
From stdpp Require Import base list strings.

(** Division and remainder by literals are handed to [lia] as equations. *)
Ltac Zify.zify_post_hook ::= Z.div_mod_to_equations.

(** ** Shared declarations ([esp_err.h], [utils/config.h], [attack_logger.h]) *)

Inductive esp_err_t : Set :=
| ESP_OK
| ESP_FAIL
| ESP_ERR_INVALID_ARG
| ESP_ERR_INVALID_SIZE.

(** [utils/config.h] *)
Definition MAX_LOG_ENTRIES : nat := 100.
Definition MAX_CONCURRENT_CONNECTIONS : Z := 6.
Definition CONNECTION_TIMEOUT_MS : Z := 10000.

(** [uint32_t] arithmetic. *)
Definition UINT32_MOD : Z := 2 ^ 32.
Definition u32_incr (x : Z) : Z := (x + 1) mod UINT32_MOD.

(** Modelled from the spec: [attack_logger.h] is not among the sources, so the
    record type [attack_log_t] is rebuilt from the fields the code reads and
    writes and from the field list of the specification (section 3,
    AttackRecord). *)
Record attack_log_t : Set := mk_attack_log {
  timestamp : Z;
  source_ip : string;
  target_port : Z;
  service : string;
  username : string;
  password : string;
  user_agent : string;
  payload_hash : string;
  metadata : string
}.

(** Modelled from the spec: the sizes of the character arrays of
    [attack_log_t] (section 6, field caps: source_ip 16, service 16,
    username 64, password 64, user_agent 255, payload_hash 32 hex characters,
    metadata 255).  The caps of 16 and 64 are read as array sizes; the caps of
    255 and 32 as the longest content of arrays of 256 and 33 bytes. *)
Definition SOURCE_IP_SIZE : nat := 16.
Definition SERVICE_SIZE : nat := 16.
Definition USERNAME_SIZE : nat := 64.
Definition PASSWORD_SIZE : nat := 64.
Definition USER_AGENT_SIZE : nat := 256.
Definition PAYLOAD_HASH_SIZE : nat := 33.
Definition METADATA_SIZE : nat := 256.

(** An all-zero record: what a slot of a static array, or [= {0}], holds. *)
Definition attack_log_zero : attack_log_t :=
  mk_attack_log 0 EmptyString 0 EmptyString EmptyString EmptyString
                EmptyString EmptyString EmptyString.

#[global] Instance attack_log_inhabited : Inhabited attack_log_t :=
  populate attack_log_zero.

(** ** The C library, as far as the sources use it *)

Module CLib.

Local Open Scope string_scope.

Definition LF : string := String "010"%char EmptyString.
Definition CRLF : string := String "013"%char LF.
Definition DQUOTE : string := String "034"%char EmptyString.

(** The C string held by a byte buffer: the bytes before the first NUL. *)
Fixpoint c_str (s : string) : string :=
  match s with
  | EmptyString => EmptyString
  | String c t => if Ascii.eqb c Ascii.zero then EmptyString
                  else String c (c_str t)
  end.

Definition strlen (s : string) : nat := String.length s.

(** The first [n] characters of [s], and [s] without them ([s + n]). *)
Fixpoint str_take (n : nat) (s : string) : string :=
  match n, s with
  | S n', String c t => String c (str_take n' t)
  | _, _ => EmptyString
  end.

Fixpoint str_drop (n : nat) (s : string) : string :=
  match n, s with
  | S n', String _ t => str_drop n' t
  | _, _ => s
  end.

(** [strncpy(dst, src, n)] into a destination whose bytes from [n] on are
    zero (a zeroed array, or one [strncpy] has padded before), read back as a
    C string; also [strncpy(dst, src, n); dst[n] = 0] with [n <= strlen(src)]. *)
Definition strncpy (src : string) (n : nat) : string := str_take n src.

(** Whether [s] starts with [p]. *)
Fixpoint has_prefix (p s : string) : bool :=
  match p, s with
  | EmptyString, _ => true
  | String a p', String b s' => Ascii.eqb a b && has_prefix p' s'
  | String _ _, EmptyString => false
  end.

(** [strstr(hay, needle)]: the offset of the first occurrence. *)
Fixpoint strstr (hay needle : string) : option nat :=
  if has_prefix needle hay then Some 0
  else match hay with
       | EmptyString => None
       | String _ t => S <$> strstr t needle
       end.

(** [strchr(s, c)]: the offset of the first [c]. *)
Fixpoint strchr (s : string) (c : ascii) : option nat :=
  match s with
  | EmptyString => None
  | String d t => if Ascii.eqb d c then Some 0 else S <$> strchr t c
  end.

Definition code (c : ascii) : Z := Z.of_N (N_of_ascii c).

Definition in_range (lo hi c : ascii) : bool :=
  ((code lo <=? code c) && (code c <=? code hi))%Z.

(** [<ctype.h>] in the C locale. *)
Definition isspace (c : ascii) : bool :=
  Ascii.eqb c " " || in_range "009" "013" c.

Definition isdigit (c : ascii) : bool := in_range "0" "9" c.

Definition isxdigit (c : ascii) : bool :=
  isdigit c || in_range "a" "f" c || in_range "A" "F" c.

Definition tolower (c : ascii) : ascii :=
  if in_range "A" "Z" c then ascii_of_N (N_of_ascii c + 32) else c.

Definition hex_value (c : ascii) : Z :=
  (if isdigit c then code c - code "0"
   else if in_range "a" "f" c then code c - code "a" + 10
   else code c - code "A" + 10)%Z.

(** [(char)strtol(hex, NULL, 16)] for two hexadecimal digits. *)
Definition hex_byte (a b : ascii) : ascii :=
  ascii_of_N (Z.to_N (16 * hex_value a + hex_value b)).

(** [strncasecmp(a, b, n)]. *)
Fixpoint strncasecmp (a b : string) (n : nat) {struct n} : Z :=
  match n with
  | O => 0%Z
  | S n' =>
      match a, b with
      | EmptyString, EmptyString => 0%Z
      | EmptyString, String cb _ => (0 - code (tolower cb))%Z
      | String ca _, EmptyString => code (tolower ca)
      | String ca ta, String cb tb =>
          if Ascii.eqb (tolower ca) (tolower cb) then strncasecmp ta tb n'
          else (code (tolower ca) - code (tolower cb))%Z
      end
  end.

Definition strcmp_eq (a b : string) : bool := String.eqb a b.

(** The loop that steps [ptr] over blanks (code 32). *)
Fixpoint skip_spaces (s : string) : string :=
  match s with
  | String c t => if Ascii.eqb c " " then skip_spaces t else s
  | EmptyString => s
  end.

(** The white space a [scanf] directive skips. *)
Fixpoint skip_ws (s : string) : string :=
  match s with
  | String c t => if isspace c then skip_ws t else s
  | EmptyString => s
  end.

(** A [%<width>s] conversion once white space is skipped: the longest run of
    at most [width] characters that are not white space, and the input left. *)
Fixpoint scan_word (width : nat) (s : string) : string * string :=
  match width, s with
  | S w, String c t =>
      if isspace c then (EmptyString, s)
      else let '(word, rest) := scan_word w t in (String c word, rest)
  | _, _ => (EmptyString, s)
  end.

(** [sscanf(data, "%<w1>s %<w2>s", a, b)] with [a] and [b] zeroed arrays: a
    conversion that meets the end of the input assigns nothing. *)
Definition sscanf_s_s (w1 w2 : nat) (data : string) : string * string :=
  let '(a, rest) := scan_word w1 (skip_ws data) in
  let '(b, _) := scan_word w2 (skip_ws rest) in
  (a, b).

Definition digit_char (d : Z) : ascii := ascii_of_N (Z.to_N (48 + d)).

(** The decimal digits of [n >= 0], most significant first, at most [fuel]
    of them. *)
Fixpoint dec_digits (fuel : nat) (n : Z) : string :=
  match fuel with
  | O => EmptyString
  | S fuel' =>
      (if (n <? 10)%Z then EmptyString else dec_digits fuel' (n / 10)%Z)
      +:+ String (digit_char (n mod 10)%Z) EmptyString
  end.

(** [%d] of an [int]: ten digits are enough below 2^31. *)
Definition fmt_d (z : Z) : string :=
  if (z <? 0)%Z then "-" +:+ dec_digits 10 (- z)%Z else dec_digits 10 z.

(** [snprintf(buffer, size, ...)] where the format expands to [text] and the
    buffer held [old]: the buffer read back as a C string, and the value
    returned (the length of the whole expansion). *)
Definition snprintf (old : string) (size : nat) (text : string) : string * Z :=
  (if bool_decide (size = 0) then old else str_take (size - 1) text,
   Z.of_nat (String.length text)).

(** [struct tm], with the fields [strftime] is asked for. *)
Record tm : Set := mk_tm {
  tm_year : Z;   (* years since 1900 *)
  tm_mon : Z;    (* 0 .. 11 *)
  tm_mday : Z;
  tm_hour : Z;
  tm_min : Z;
  tm_sec : Z
}.

(** [gmtime]: the proleptic Gregorian date of a count of seconds since
    1970-01-01T00:00:00Z (days are turned into a civil date era by era, an era
    being 400 years or 146097 days, counted from 0000-03-01). *)
Definition gmtime (t : Z) : tm := (
  let days := t / 86400 in
  let secs := t mod 86400 in
  let z := days + 719468 in
  let era := z / 146097 in
  let doe := z mod 146097 in
  let yoe := (doe - doe / 1460 + doe / 36524 - doe / 146096) / 365 in
  let doy := doe - (365 * yoe + yoe / 4 - yoe / 100) in
  let mp := (5 * doy + 2) / 153 in
  let d := doy - (153 * mp + 2) / 5 + 1 in
  let m := if mp <? 10 then mp + 3 else mp - 9 in
  let y := yoe + era * 400 + (if m <=? 2 then 1 else 0) in
  mk_tm (y - 1900) (m - 1) d (secs / 3600) (secs mod 3600 / 60)
        (secs mod 60))%Z.

(** [localtime] in a zone that is [tz_offset] seconds east of UTC (the zone
    is the device's [TZ] setting; 0 when it is unset). *)
Definition localtime (tz_offset : Z) (t : Z) : tm :=
  gmtime (t + tz_offset)%Z.

Definition pad2 (z : Z) : string :=
  if (z <? 10)%Z then "0" +:+ fmt_d z else fmt_d z.

Definition strftime_conv (c : ascii) (t : tm) : string :=
  if Ascii.eqb c "Y" then fmt_d (tm_year t + 1900)%Z
  else if Ascii.eqb c "m" then pad2 (tm_mon t + 1)%Z
  else if Ascii.eqb c "d" then pad2 (tm_mday t)
  else if Ascii.eqb c "H" then pad2 (tm_hour t)
  else if Ascii.eqb c "M" then pad2 (tm_min t)
  else if Ascii.eqb c "S" then pad2 (tm_sec t)
  else String c EmptyString.

Fixpoint strftime_expand (fmt : string) (t : tm) : string :=
  match fmt with
  | EmptyString => EmptyString
  | String c rest =>
      match rest with
      | String d rest' =>
          if Ascii.eqb c "%" then strftime_conv d t +:+ strftime_expand rest' t
          else String c (strftime_expand rest t)
      | EmptyString => String c EmptyString
      end
  end.

(** [strftime(buf, max, fmt, tm)] for the conversions the sources use.  C
    leaves the array indeterminate when the text and its NUL do not fit; the
    model has the empty string there. *)
Definition strftime (max : nat) (fmt : string) (t : tm) : string :=
  let text := strftime_expand fmt t in
  if bool_decide (String.length text < max) then text else EmptyString.

End CLib.

(** ** The attack logger ([main/logging/attack_logger.c]) *)

Module AttackLogger.
Import CLib.

(** Modelled from the spec: [logger_stats_t] ([attack_logger.h], absent) with
    the three fields [attack_logger.c] touches; [total_logged] is taken to be
    a [uint32_t] like the counters of [honeypot_stats_t]. *)
Record logger_stats_t : Set := mk_logger_stats {
  total_logged : Z;
  last_log_time : Z;
  start_time : Z
}.

(** Modelled from the spec: the flash mirror behind [flash_storage.h]
    ([flash_storage.c] is not among the sources).  Section 6 describes it as an
    append-only mirror of attack records, section 4.C has [log] append to it
    and [clear] ask it to clear.  The mirror is the list of records it holds,
    oldest first; the rotation at [FLASH_LOG_SIZE] bytes is not modelled. *)
Definition flash_mirror : Set := list attack_log_t.

(** Modelled from the spec: [flash_storage_save_log] ([flash_storage.c], not
    among the sources) appends the record to the mirror (section 4.C, [log]:
    "then append to flash mirror"). *)
Definition flash_storage_save_log (e : attack_log_t) (f : flash_mirror)
  : flash_mirror := f ++ [e].

(** Modelled from the spec: [flash_storage_clear_all] ([flash_storage.c], not
    among the sources) empties the mirror (section 4.C, [clear]: "asks flash
    to clear"). *)
Definition flash_storage_clear_all (f : flash_mirror) : flash_mirror := [].

(** The file-scope variables of [attack_logger.c], and the mirror. *)
Record logger : Set := mk_logger {
  log_buffer : list attack_log_t;
  buffer_head : nat;
  buffer_tail : nat;
  buffer_count : nat;
  stats : logger_stats_t;
  flash : flash_mirror
}.

(** The state at power-on: static storage is zero-initialised. *)
Definition logger_boot : logger :=
  mk_logger (replicate MAX_LOG_ENTRIES attack_log_zero) 0 0 0
            (mk_logger_stats 0 0 0) [].

(** [attack_logger_init].  [flash_ok] is whether [flash_storage_init]
    returned [ESP_OK]; [loaded] lists the records that
    [flash_storage_load_logs(log_buffer, MAX_LOG_ENTRIES)] wrote to
    [log_buffer[0 .. loaded-1]], in slot order; [now] is [time(NULL)]. *)
Definition attack_logger_init (flash_ok : bool) (loaded : list attack_log_t)
    (now : Z) (s : logger) : esp_err_t * logger :=
  if negb flash_ok then (ESP_FAIL, s)
  else
    let buf := loaded ++ drop (length loaded) (log_buffer s) in
    let s1 :=
      if bool_decide (0 < length loaded) then
        mk_logger buf (length loaded mod MAX_LOG_ENTRIES) (buffer_tail s)
                  (length loaded) (stats s) (flash s)
      else
        mk_logger buf (buffer_head s) (buffer_tail s) (buffer_count s)
                  (stats s) (flash s) in
    (ESP_OK,
     mk_logger (log_buffer s1) (buffer_head s1) (buffer_tail s1)
               (buffer_count s1)
               (mk_logger_stats (total_logged (stats s1))
                                (last_log_time (stats s1)) now)
               (flash s1)).

(** [attack_logger_log].  The return value of [flash_storage_save_log] is
    ignored by the code; [log_to_console] only prints. *)
Definition attack_logger_log (log_entry : option attack_log_t) (now : Z)
    (s : logger) : esp_err_t * logger :=
  match log_entry with
  | None => (ESP_ERR_INVALID_ARG, s)
  | Some e =>
      let buf := <[buffer_head s := e]> (log_buffer s) in
      let head := (buffer_head s + 1) mod MAX_LOG_ENTRIES in
      let count :=
        if bool_decide (buffer_count s < MAX_LOG_ENTRIES)
        then buffer_count s + 1 else buffer_count s in
      let tail :=
        if bool_decide (buffer_count s < MAX_LOG_ENTRIES)
        then buffer_tail s else (buffer_tail s + 1) mod MAX_LOG_ENTRIES in
      (ESP_OK,
       mk_logger buf head tail count
                 (mk_logger_stats (u32_incr (total_logged (stats s))) now
                                  (start_time (stats s)))
                 (flash_storage_save_log e (flash s)))
  end.

(** The copy loop of [attack_logger_get_recent]: [n] iterations are left,
    the next one writes [logs[i]], and [idx] is the loop's index variable. *)
Fixpoint copy_recent (n i idx : nat) (buf logs : list attack_log_t)
  : list attack_log_t :=
  match n with
  | O => logs
  | S n' =>
      let idx' := if bool_decide (idx = 0) then MAX_LOG_ENTRIES - 1
                  else idx - 1 in
      copy_recent n' (S i) idx' buf (<[i := buf !!! idx']> logs)
  end.

(** [attack_logger_get_recent].  [logs] is the caller's array, [num_logs] the
    cell that receives the number of records copied. *)
Definition attack_logger_get_recent (logs : option (list attack_log_t))
    (max_logs : nat) (num_logs : option nat) (s : logger)
  : esp_err_t * option (list attack_log_t) * option nat :=
  match logs, num_logs with
  | Some out, Some _ =>
      let count := if bool_decide (buffer_count s < max_logs)
                   then buffer_count s else max_logs in
      if bool_decide (count = 0) then (ESP_OK, Some out, Some count)
      else (ESP_OK,
            Some (copy_recent count 0 (buffer_head s) (log_buffer s) out),
            Some count)
  | _, _ => (ESP_ERR_INVALID_ARG, logs, num_logs)
  end.

(** [attack_logger_clear]: the indices, the mirror and two of the three
    statistics are reset; the slots of [log_buffer] are left as they are. *)
Definition attack_logger_clear (s : logger) : esp_err_t * logger :=
  (ESP_OK,
   mk_logger (log_buffer s) 0 0 0
             (mk_logger_stats 0 0 (start_time (stats s)))
             (flash_storage_clear_all (flash s))).

Definition attack_logger_get_stats (out_stats : option logger_stats_t)
    (s : logger) : esp_err_t * option logger_stats_t :=
  match out_stats with
  | None => (ESP_ERR_INVALID_ARG, None)
  | Some _ => (ESP_OK, Some (stats s))
  end.

Definition attack_logger_count (s : logger) : nat := buffer_count s.

(** *** JSON for remote transmission *)

(** A member of the JSON object whose value is printed with ["%s"] between
    double quotes. *)
Definition json_member (key value : string) : string :=
  (DQUOTE +:+ key +:+ DQUOTE +:+ ":" +:+ DQUOTE +:+ value +:+ DQUOTE)%string.

(** The expansion of the format of [attack_logger_format_json]. *)
Definition json_text (time_str : string) (log : attack_log_t) : string :=
  ("{" +:+ json_member "timestamp" time_str +:+ ","
   +:+ json_member "source_ip" (source_ip log) +:+ ","
   +:+ DQUOTE +:+ "target_port" +:+ DQUOTE +:+ ":"
   +:+ fmt_d (target_port log) +:+ ","
   +:+ json_member "service" (service log) +:+ ","
   +:+ json_member "username" (username log) +:+ ","
   +:+ json_member "password" (password log) +:+ ","
   +:+ json_member "user_agent" (user_agent log) +:+ ","
   +:+ json_member "payload_hash" (payload_hash log) +:+ ","
   +:+ json_member "metadata" (metadata log) +:+ "}")%string.

(** The text [attack_logger_format_json] puts in [time_str]: [localtime],
    then [strftime] with a literal [Z] at the end.  [tz_offset] is the
    device's zone, in seconds east of UTC. *)
Definition json_time_str (tz_offset : Z) (log : attack_log_t) : string :=
  strftime 32 "%Y-%m-%dT%H:%M:%SZ" (localtime tz_offset (timestamp log)).

(** [attack_logger_format_json].  [buffer] is the caller's array as a C
    string ([None] for [NULL]); the result is the error code and the array
    afterwards.  [written >= buffer_size] compares an [int] that is not
    negative with a [size_t]. *)
Definition attack_logger_format_json (tz_offset : Z)
    (log : option attack_log_t) (buffer : option string) (buffer_size : nat)
  : esp_err_t * option string :=
  match log, buffer with
  | Some log, Some old =>
      let time_str := json_time_str tz_offset log in
      let '(buf, written) := snprintf old buffer_size (json_text time_str log) in
      if ((written <? 0) || (Z.of_nat buffer_size <=? written))%Z
      then (ESP_ERR_INVALID_SIZE, Some buf)
      else (ESP_OK, Some buf)
  | _, _ => (ESP_ERR_INVALID_ARG, buffer)
  end.

(** The ISO 8601 rendering of [t] seconds since the epoch in UTC, with the
    [Z] suffix: what the specification asks of the [timestamp] member. *)
Definition iso8601_utc (t : Z) : string :=
  strftime 32 "%Y-%m-%dT%H:%M:%SZ" (gmtime t).

(** *** Runs of the logger *)

Inductive logger_op : Set :=
| OpInit (flash_ok : bool) (loaded : list attack_log_t) (now : Z)
| OpLog (log_entry : option attack_log_t) (now : Z)
| OpClear.

Definition logger_step (s : logger) (op : logger_op) : logger :=
  match op with
  | OpInit ok loaded now => (attack_logger_init ok loaded now s).2
  | OpLog e now => (attack_logger_log e now s).2
  | OpClear => (attack_logger_clear s).2
  end.

Definition logger_run (s : logger) (ops : list logger_op) : logger :=
  foldl logger_step s ops.

(** Flash hands back at most [MAX_LOG_ENTRIES] records. *)
Definition load_fits (op : logger_op) : bool :=
  match op with
  | OpInit _ loaded _ => bool_decide (length loaded <= MAX_LOG_ENTRIES)
  | _ => true
  end.

(** The records the ring is meant to hold after a run, newest first, written
    from the specification's words: [log] puts a record in front and the ring
    keeps the [MAX_LOG_ENTRIES] newest, [clear] empties it, and a successful
    [init] that found records replaces the content by what flash loaded
    (slot 0 the oldest). *)
Definition history_step (h : list attack_log_t) (op : logger_op)
  : list attack_log_t :=
  match op with
  | OpInit true (r :: l) _ => reverse (r :: l)
  | OpInit _ _ _ => h
  | OpLog (Some e) _ => take MAX_LOG_ENTRIES (e :: h)
  | OpLog None _ => h
  | OpClear => []
  end.

Definition history (ops : list logger_op) : list attack_log_t :=
  foldl history_step [] ops.



(** Sample data: a record stamped [t], and a run of [n] log calls stamped
    [1 .. n]. *)
Definition sample_record (t : Z) : attack_log_t :=
  mk_attack_log t "10.0.0.7" 80 "HTTP" "N/A" "N/A" "curl/7.81"
                "d41d8cd98f00b204e9800998ecf8427e" "Method: GET, Path: /".


Definition sample_logs (n : nat) : list logger_op :=
  (λ t, OpLog (Some (sample_record t)) t) <$> seqZ 1 (Z.of_nat n).

(** A start-up [init] that loads one record, 99 logs, a clear, an [init] that
    finds flash empty, and 100 logs: the ring ends full. *)
Definition sample_session : list logger_op :=
  OpInit true [sample_record 0] 1 :: sample_logs 99
  ++ [OpClear; OpInit true [] 2] ++ sample_logs 100.


End AttackLogger.

(** ** JSON as the specification has it

    Section 6 of the specification gives the remote upload format of a
    record as a compact JSON object of nine members, and asks that reading
    back what [format_json] wrote gives the record.  What follows is a reader
    of such objects, written from the JSON grammar and not from the code: it
    is what the text [attack_logger_format_json] prints is measured
    against. *)

Module JsonSpec.
Import CLib.

Local Open Scope string_scope.
















End JsonSpec.

(** ** The HTTP service ([main/services/http_service.c]) *)

Module Http.
Import CLib.

Local Open Scope string_scope.

(** What the handler acts on: the bytes passed to [send], per socket, in
    order; the warnings [ESP_LOGW] wrote; the attack logger. *)
Record world : Set := mk_world {
  sent : list (Z * string);
  warnings : list string;
  log_store : AttackLogger.logger
}.

Definition FAKE_LOGIN_HTML : string :=
  "<!DOCTYPE html>" +:+ LF +:+
  "<html lang='en'>" +:+ LF +:+
  "<head>" +:+ LF +:+
  "    <meta charset='UTF-8'>" +:+ LF +:+
  "    <meta name='viewport' content='width=device-width, initial-scale=1.0'>" +:+ LF +:+
  "    <title>Router Admin Panel</title>" +:+ LF +:+
  "    <style>" +:+ LF +:+
  "        body { font-family: Arial, sans-serif; margin: 40px; }" +:+ LF +:+
  "        .container { max-width: 400px; margin: 0 auto; padding: 20px; border: 1px solid #ccc; }" +:+ LF +:+
  "        .error { color: red; margin-top: 10px; }" +:+ LF +:+
  "    </style>" +:+ LF +:+
  "</head>" +:+ LF +:+
  "<body>" +:+ LF +:+
  "    <div class='container'>" +:+ LF +:+
  "        <h2>Router Administration</h2>" +:+ LF +:+
  "        <div class='error'>Access Denied: Invalid credentials</div>" +:+ LF +:+
  "        <p>Please contact your network administrator.</p>" +:+ LF +:+
  "    </div>" +:+ LF +:+
  "</body>" +:+ LF +:+
  "</html>".

(** [HTTP_RESPONSE_TEMPLATE] expanded with a status code, a reason, a
    content length and a body. *)
Definition HTTP_RESPONSE_TEMPLATE (status : Z) (reason : string)
    (content_length : Z) (body : string) : string :=
  "HTTP/1.1 " +:+ fmt_d status +:+ " " +:+ reason +:+ CRLF +:+
  "Content-Type: text/html" +:+ CRLF +:+
  "Content-Length: " +:+ fmt_d content_length +:+ CRLF +:+
  "Connection: close" +:+ CRLF +:+
  "Server: Apache/2.4.41 (Ubuntu)" +:+ CRLF +:+
  CRLF +:+
  body.

(** [sizeof(char * )] on the ESP32 (a 32-bit target). *)
Definition SIZEOF_CHAR_PTR : nat := 4.

(** The header loop of [parse_http_request]; [ptr] is the text from the
    loop's pointer on, [user_agent] and [authorization] the two output
    arrays.  One unit of [fuel] is spent per iteration. *)
Fixpoint parse_headers (fuel : nat) (ptr user_agent authorization : string)
  : string * string :=
  match fuel with
  | O => (user_agent, authorization)
  | S fuel' =>
      if bool_decide (ptr = EmptyString) then (user_agent, authorization)
      else
        match strstr ptr CRLF with
        | None => (user_agent, authorization)
        | Some off =>
            let ptr := str_drop (off + 2) ptr in
            if bool_decide (strncasecmp ptr "User-Agent:" 11 = 0%Z) then
              let ptr := skip_spaces (str_drop 11 ptr) in
              match strstr ptr CRLF with
              | Some e =>
                  if bool_decide (e < 255)
                  then parse_headers fuel' ptr (strncpy ptr e) authorization
                  else parse_headers fuel' ptr user_agent authorization
              | None => parse_headers fuel' ptr user_agent authorization
              end
            else if bool_decide (strncasecmp ptr "Authorization:" 14 = 0%Z)
            then
              let ptr := skip_spaces (str_drop 14 ptr) in
              match strstr ptr CRLF with
              | Some e =>
                  if bool_decide (e < 255)
                  then parse_headers fuel' ptr user_agent (strncpy ptr e)
                  else parse_headers fuel' ptr user_agent authorization
              | None => parse_headers fuel' ptr user_agent authorization
              end
            else if has_prefix CRLF ptr then (user_agent, authorization)
            else parse_headers fuel' ptr user_agent authorization
        end
  end.

(** One pass through the header loop of [parse_http_request], from the test
    of the loop condition on: [None] when the loop is left (the condition
    fails, or [break] is reached), and otherwise the pointer and the two
    output arrays as the pass leaves them. *)
Definition header_loop_pass (ptr user_agent authorization : string)
  : option (string * string * string) :=
  if bool_decide (ptr = EmptyString) then None
  else
    match strstr ptr CRLF with
    | None => None
    | Some off =>
        let ptr := str_drop (off + 2) ptr in
        if bool_decide (strncasecmp ptr "User-Agent:" 11 = 0%Z) then
          let ptr := skip_spaces (str_drop 11 ptr) in
          match strstr ptr CRLF with
          | Some e =>
              if bool_decide (e < 255)
              then Some (ptr, strncpy ptr e, authorization)
              else Some (ptr, user_agent, authorization)
          | None => Some (ptr, user_agent, authorization)
          end
        else if bool_decide (strncasecmp ptr "Authorization:" 14 = 0%Z)
        then
          let ptr := skip_spaces (str_drop 14 ptr) in
          match strstr ptr CRLF with
          | Some e =>
              if bool_decide (e < 255)
              then Some (ptr, user_agent, strncpy ptr e)
              else Some (ptr, user_agent, authorization)
          | None => Some (ptr, user_agent, authorization)
          end
        else if has_prefix CRLF ptr then None
        else Some (ptr, user_agent, authorization)
    end.

(** [n] passes through the loop, one after the other: [None] when the loop
    is left before the [n]-th pass is over. *)
Fixpoint header_loop_passes (n : nat) (ptr user_agent authorization : string)
  : option (string * string * string) :=
  match n with
  | O => Some (ptr, user_agent, authorization)
  | S n' =>
      match header_loop_pass ptr user_agent authorization with
      | Some (p, u, a) => header_loop_passes n' p u a
      | None => None
      end
  end.
(** The parsed request: [method], [path], [user_agent], [authorization]. *)
Record request : Set := mk_request {
  method : string;
  path : string;
  req_user_agent : string;
  req_authorization : string
}.

(** [parse_http_request]: [None] where the code returns [false].  The four
    output arrays are zeroed by the caller.  Every iteration of the header
    loop moves [ptr] forward by two characters or more, so [strlen(data)]
    units of fuel are never used up (see [header_loop_terminates]). *)
Definition parse_http_request (data : option string) : option request :=
  match data with
  | None => None
  | Some data =>
      if bool_decide (strlen data < 10) then None
      else
        let '(m, p) := sscanf_s_s 15 127 data in
        let '(ua, auth) :=
          parse_headers (strlen data) data EmptyString EmptyString in
        Some (mk_request m p ua auth)
  end.

Definition send (sock_fd : Z) (bytes : string) (w : world) : world :=
  mk_world (sent w ++ [(sock_fd, bytes)])%list (warnings w) (log_store w).

Definition ESP_LOGW (line : string) (w : world) : world :=
  mk_world (sent w) (warnings w ++ [line])%list (log_store w).

(** [send_fake_response]: the template printed into [response[2048]] and
    sent up to its NUL. *)
Definition send_fake_response (sock_fd : Z) (w : world) : world :=
  let response :=
    (snprintf EmptyString 2048
       (HTTP_RESPONSE_TEMPLATE 403 "Forbidden"
          (Z.of_nat (strlen FAKE_LOGIN_HTML)) FAKE_LOGIN_HTML)).1 in
  send sock_fd response w.

Definition send_error_response (sock_fd : Z) (status : Z) (message : string)
    (w : world) : world :=
  let body :=
    "<html><body><h1>Error</h1><p>An error occurred.</p></body></html>" in
  let response :=
    (snprintf EmptyString 512
       (HTTP_RESPONSE_TEMPLATE status message (Z.of_nat (strlen body))
          body)).1 in
  send sock_fd response w.

(** [url_decode], before the result is read back as a C string. *)
Fixpoint url_decode_bytes (src : string) : string :=
  match src with
  | EmptyString => EmptyString
  | String c t =>
      match t with
      | String a (String b rest) =>
          if Ascii.eqb c "%" && isxdigit a && isxdigit b
          then String (hex_byte a b) (url_decode_bytes rest)
          else if Ascii.eqb c "+" then String " " (url_decode_bytes t)
          else String c (url_decode_bytes t)
      | _ =>
          if Ascii.eqb c "+" then String " " (url_decode_bytes t)
          else String c (url_decode_bytes t)
      end
  end.

(** [url_decode], in place: a decoded NUL ends the string. *)
Definition url_decode (str : string) : string := c_str (url_decode_bytes str).

(** One round of either loop of [extract_credentials_from_post]: [field] is
    the output array ([username] or [password]) as it stands.  [sizeof] of an
    array parameter is the size of a pointer. *)
Definition extract_field (data pattern field : string) : string :=
  match strstr data pattern with
  | None => field
  | Some found =>
      let start := str_drop (found + strlen pattern) data in
      let len :=
        match strchr start "&" with
        | Some e => e
        | None => match strchr start " " with
                  | Some e => e
                  | None => strlen start
                  end
        end in
      if bool_decide (len < SIZEOF_CHAR_PTR - 1)
      then url_decode (strncpy start len)
      else field
  end.

Definition username_patterns : list string :=
  ["username="; "user="; "login="; "uname="].

Definition password_patterns : list string :=
  ["password="; "pass="; "pwd="; "passwd="].

(** [extract_credentials_from_post]: the first loop runs over
    [patterns[0 .. 3]], the second over [patterns[4 .. 7]]; neither stops at a
    match. *)
Definition extract_credentials_from_post (data username password : string)
  : string * string :=
  (foldl (λ field pattern, extract_field data pattern field)
         username username_patterns,
   foldl (λ field pattern, extract_field data pattern field)
         password password_patterns).

Section WithHash.

(** [generate_md5_hash] ([utils/md5_hash.h], not among the sources): from the
    bytes hashed to the hexadecimal digest. *)
Variable generate_md5_hash : string → string.

(** The record [log_http_attack] builds.  [payload] is the bytes in memory
    from the pointer [payload] on: [extract_credentials_from_post] reads them
    as a C string, up to the first NUL, and [generate_md5_hash] is handed the
    first [min(512, payload_len)] of them, whatever they are. *)
Definition http_log_entry (client_ip : string) (port : Z)
    (method path user_agent authorization payload : string)
    (payload_len : nat) (now : Z) : attack_log_t :=
  let username := strncpy "N/A" (USERNAME_SIZE - 1) in
  let password := strncpy "N/A" (PASSWORD_SIZE - 1) in
  let password :=
    if bool_decide (authorization ≠ EmptyString)
    then strncpy authorization (PASSWORD_SIZE - 1) else password in
  let '(username, password) :=
    if strcmp_eq method "POST"
    then extract_credentials_from_post (c_str payload) username password
    else (username, password) in
  mk_attack_log
    now
    (strncpy client_ip (SOURCE_IP_SIZE - 1))
    port
    "HTTP"
    username
    password
    (strncpy user_agent (USER_AGENT_SIZE - 1))
    (generate_md5_hash
       (str_take (if bool_decide (512 < payload_len) then 512 else payload_len)
                 payload))
    (snprintf EmptyString METADATA_SIZE
       ("Method: " +:+ method +:+ ", Path: " +:+ path)).1.

Definition log_http_attack (client_ip : string) (port : Z)
    (method path user_agent authorization payload : string)
    (payload_len : nat) (now : Z) (w : world) : world :=
  let log_entry :=
    http_log_entry client_ip port method path user_agent authorization
                   payload payload_len now in
  mk_world (sent w) (warnings w)
           (AttackLogger.attack_logger_log (Some log_entry) now
                                           (log_store w)).2.

Definition suspicious_path (path : string) : bool :=
  bool_decide (is_Some (strstr path "/shell"))
  || bool_decide (is_Some (strstr path "/cmd"))
  || bool_decide (is_Some (strstr path "/exec"))
  || bool_decide (is_Some (strstr path "..")).

(** [http_service_handle_request].  [data] is the bytes in memory from the
    pointer [data] on ([None] for [NULL]): the parser reads them as a C
    string, [c_str data], and [log_http_attack] gets the pointer itself.
    [len] is the number of bytes received, [now] what [time(NULL)] returns
    during the call. *)
Definition http_service_handle_request (sock_fd : Z) (data : option string)
    (len : nat) (client_ip : string) (port : Z) (now : Z) (w : world)
  : world :=
  match parse_http_request (c_str <$> data), data with
  | Some req, Some payload =>
      let w :=
        if suspicious_path (path req)
        then ESP_LOGW ("Potential path traversal attack from " +:+ client_ip
                       +:+ ": " +:+ path req) w
        else w in
      let w := send_fake_response sock_fd w in
      log_http_attack client_ip port (method req) (path req)
                      (req_user_agent req) (req_authorization req)
                      payload len now w
  | _, _ =>
      let w := ESP_LOGW ("Invalid HTTP request from " +:+ client_ip) w in
      send_error_response sock_fd 400 "Bad Request" w
  end.

End WithHash.

(** *** The request line as the specification words it

    [METHOD SP PATH SP VERSION CRLF] with [METHOD] of 1 to 15 and [PATH] of 1
    to 127 characters, none of them white space, and a non-empty [VERSION]
    without white space. *)
Fixpoint no_space (s : string) : bool :=
  match s with
  | EmptyString => true
  | String c t => negb (isspace c) && no_space t
  end.

Definition spec_request_line (data : string) : bool :=
  match strchr data " " with
  | None => false
  | Some i =>
      let m := str_take i data in
      let rest := str_drop (i + 1) data in
      match strchr rest " " with
      | None => false
      | Some j =>
          let p := str_take j rest in
          let rest' := str_drop (j + 1) rest in
          match strstr rest' CRLF with
          | None => false
          | Some k =>
              let v := str_take k rest' in
              bool_decide (1 ≤ i ≤ 15)%nat && no_space m
              && bool_decide (1 ≤ j ≤ 127)%nat && no_space p
              && bool_decide (1 ≤ k)%nat && no_space v
          end
      end
  end.

(** *** Header lines, one at a time

    What one header line does to the two extracted values, told without
    pointers: a line whose first 11 (14) characters read [User-Agent:]
    ([Authorization:]) in any case sets the value to what follows the blanks
    after the colon if that is shorter than 255 characters, and changes
    nothing otherwise. *)
Definition header_name_is (name : string) (line : string) : bool :=
  bool_decide (strncasecmp line name (strlen name) = 0%Z).

Definition header_line_step (acc : string * string) (line : string)
  : string * string :=
  if header_name_is "User-Agent:" line then
    let v := skip_spaces (str_drop 11 line) in
    if bool_decide (strlen v < 255) then (v, acc.2) else acc
  else if header_name_is "Authorization:" line then
    let v := skip_spaces (str_drop 14 line) in
    if bool_decide (strlen v < 255) then (acc.1, v) else acc
  else acc.

(** A request assembled from its request line, its header lines and its
    body. *)
Definition assemble (request_line : string) (headers : list string)
    (body : string) : string :=
  request_line +:+ CRLF
  +:+ foldr (λ line rest, line +:+ CRLF +:+ rest) (CRLF +:+ body) headers.

(** A line of a request: not empty, and free of carriage returns. *)
Fixpoint no_cr (s : string) : bool :=
  match s with
  | EmptyString => true
  | String c t => negb (Ascii.eqb c "013") && no_cr t
  end.

Definition header_line_ok (line : string) : bool :=
  negb (String.eqb line EmptyString) && no_cr line.

(** The password a record starts with, before any credential extraction
    from a [POST] body: the sentinel when no [Authorization] value was
    extracted, the value cut to the 63 characters that fit the field
    otherwise. *)
Definition password_from (authorization : string) : string :=
  if bool_decide (authorization = EmptyString) then "N/A"
  else str_take (PASSWORD_SIZE - 1) authorization.

(** *** Scenario 1 of the specification *)

Definition scenario1_request : string :=
  "POST /login HTTP/1.1" +:+ CRLF +:+
  "Host: x" +:+ CRLF +:+
  "User-Agent: curl/7.81" +:+ CRLF +:+
  "Content-Length: 27" +:+ CRLF +:+
  CRLF +:+
  "username=admin&password=1234".

Definition empty_world : world := mk_world [] [] AttackLogger.logger_boot.

(** A stand-in for the digest function in closed examples. *)
Definition sample_md5 (bytes : string) : string :=
  "d41d8cd98f00b204e9800998ecf8427e".

(** [n] copies of the character [c]. *)
Fixpoint str_repeat (n : nat) (c : ascii) : string :=
  match n with
  | O => EmptyString
  | S n' => String c (str_repeat n' c)
  end.

(** A [GET] request whose [Authorization] header has a value of 255
    characters. *)
Definition long_authorization_request : string :=
  assemble "GET /admin HTTP/1.1"
    ["Authorization: " +:+ str_repeat 255 "B"] EmptyString.

(** The two replies, byte for byte. *)
Definition forbidden_reply : string :=
  "HTTP/1.1 403 Forbidden" +:+ CRLF +:+
  "Content-Type: text/html" +:+ CRLF +:+
  "Content-Length: 647" +:+ CRLF +:+
  "Connection: close" +:+ CRLF +:+
  "Server: Apache/2.4.41 (Ubuntu)" +:+ CRLF +:+
  CRLF +:+
  FAKE_LOGIN_HTML.

Definition bad_request_reply : string :=
  "HTTP/1.1 400 Bad Request" +:+ CRLF +:+
  "Content-Type: text/html" +:+ CRLF +:+
  "Content-Length: 65" +:+ CRLF +:+
  "Connection: close" +:+ CRLF +:+
  "Server: Apache/2.4.41 (Ubuntu)" +:+ CRLF +:+
  CRLF +:+
  "<html><body><h1>Error</h1><p>An error occurred.</p></body></html>".

End Http.

(** ** The supervisor ([main/honeypot.c], [main/honeypot.h]) *)

Module Honeypot.

Record honeypot_config_t : Set := mk_config {
  ports : list Z;
  port_count : Z;
  max_connections : Z;
  connection_timeout_ms : Z;
  enable_logging : bool;
  enable_remote_upload : bool
}.

(** The counters are [uint32_t]. *)
Record honeypot_stats_t : Set := mk_stats {
  total_connections : Z;
  attacks_logged : Z;
  rate_limited : Z;
  http_attacks : Z;
  telnet_attacks : Z;
  ftp_attacks : Z;
  mqtt_attacks : Z;
  start_time : Z
}.

(** The file-scope variables of [honeypot.c], and the attack logger that
    [honeypot_init] brings up. *)
Record honeypot : Set := mk_honeypot {
  current_config : honeypot_config_t;
  stats : honeypot_stats_t;
  honeypot_task_handle : bool;   (* whether the handle is not [NULL] *)
  honeypot_running : bool;
  logger : AttackLogger.logger
}.

Definition stats_zero : honeypot_stats_t := mk_stats 0 0 0 0 0 0 0 0.

Definition honeypot_boot : honeypot :=
  mk_honeypot
    (mk_config [80; 23; 21; 1883; 8080; 2323]%Z 6 MAX_CONCURRENT_CONNECTIONS
               CONNECTION_TIMEOUT_MS true false)
    stats_zero false false AttackLogger.logger_boot.

Definition set_stats (st : honeypot_stats_t) (h : honeypot) : honeypot :=
  mk_honeypot (current_config h) st (honeypot_task_handle h)
              (honeypot_running h) (logger h).

(** [honeypot_init].  [flash_ok] and [loaded] feed [attack_logger_init];
    [rate_limiter_ok] is whether [rate_limiter_init] returned [ESP_OK]. *)
Definition honeypot_init (flash_ok : bool) (loaded : list attack_log_t)
    (rate_limiter_ok : bool) (now : Z) (h : honeypot) : esp_err_t * honeypot :=
  let '(err, lg) := AttackLogger.attack_logger_init flash_ok loaded now
                      (logger h) in
  let h := mk_honeypot (current_config h) (stats h) (honeypot_task_handle h)
                       (honeypot_running h) lg in
  match err with
  | ESP_OK =>
      if negb rate_limiter_ok then (ESP_FAIL, h)
      else
        let st := stats h in
        (ESP_OK,
         set_stats (mk_stats (total_connections st) (attacks_logged st)
                             (rate_limited st) (http_attacks st)
                             (telnet_attacks st) (ftp_attacks st)
                             (mqtt_attacks st) now) h)
  | _ => (ESP_FAIL, h)
  end.

(** [honeypot_start]; [task_created] is whether [xTaskCreate] returned
    [pdPASS]. *)
Definition honeypot_start (task_created : bool) (h : honeypot)
  : esp_err_t * honeypot :=
  if honeypot_running h then (ESP_OK, h)
  else if negb task_created then (ESP_FAIL, h)
  else (ESP_OK,
        mk_honeypot (current_config h) (stats h) true true (logger h)).

Definition honeypot_stop (h : honeypot) : esp_err_t * honeypot :=
  if negb (honeypot_running h) then (ESP_OK, h)
  else (ESP_OK,
        mk_honeypot (current_config h) (stats h) false false (logger h)).

Definition honeypot_get_stats (out_stats : option honeypot_stats_t)
    (h : honeypot) : esp_err_t * option honeypot_stats_t :=
  match out_stats with
  | None => (ESP_ERR_INVALID_ARG, None)
  | Some _ => (ESP_OK, Some (stats h))
  end.

(** [honeypot_reset_stats]: [memset] to zero, then the start time. *)
Definition honeypot_reset_stats (now : Z) (h : honeypot)
  : esp_err_t * honeypot :=
  (ESP_OK, set_stats (mk_stats 0 0 0 0 0 0 0 now) h).

Definition honeypot_set_config (config : option honeypot_config_t)
    (h : honeypot) : esp_err_t * honeypot :=
  match config with
  | None => (ESP_ERR_INVALID_ARG, h)
  | Some c =>
      (ESP_OK,
       mk_honeypot c (stats h) (honeypot_task_handle h) (honeypot_running h)
                   (logger h))
  end.

Definition honeypot_get_config (config : option honeypot_config_t)
    (h : honeypot) : esp_err_t * option honeypot_config_t :=
  match config with
  | None => (ESP_ERR_INVALID_ARG, None)
  | Some _ => (ESP_OK, Some (current_config h))
  end.

(** [handle_incoming_connection].  The three flags are the answers of
    [rate_limiter_check], [socket_manager_can_accept_connection] and
    [socket_manager_add_connection] (whether it returned [ESP_OK]); their
    modules are not among the sources. *)
Definition handle_incoming_connection (rate_ok can_accept added : bool)
    (h : honeypot) : honeypot :=
  let st := stats h in
  if negb rate_ok then
    set_stats (mk_stats (total_connections st) (attacks_logged st)
                        (u32_incr (rate_limited st)) (http_attacks st)
                        (telnet_attacks st) (ftp_attacks st)
                        (mqtt_attacks st) (start_time st)) h
  else if negb can_accept then h
  else if negb added then h
  else
    set_stats (mk_stats (u32_incr (total_connections st)) (attacks_logged st)
                        (rate_limited st) (http_attacks st)
                        (telnet_attacks st) (ftp_attacks st)
                        (mqtt_attacks st) (start_time st)) h.

(** [cleanup_stale_connections] works on the socket manager only. *)
Definition cleanup_stale_connections (h : honeypot) : honeypot := h.

(** [update_statistics]. *)
Definition update_statistics (port : Z) (h : honeypot) : honeypot :=
  let st := stats h in
  let al := u32_incr (attacks_logged st) in
  let on p := bool_decide (port = p) in
  set_stats
    (if on 80%Z || on 8080%Z then
       mk_stats (total_connections st) al (rate_limited st)
                (u32_incr (http_attacks st)) (telnet_attacks st)
                (ftp_attacks st) (mqtt_attacks st) (start_time st)
     else if on 23%Z || on 2323%Z then
       mk_stats (total_connections st) al (rate_limited st)
                (http_attacks st) (u32_incr (telnet_attacks st))
                (ftp_attacks st) (mqtt_attacks st) (start_time st)
     else if on 21%Z then
       mk_stats (total_connections st) al (rate_limited st)
                (http_attacks st) (telnet_attacks st)
                (u32_incr (ftp_attacks st)) (mqtt_attacks st) (start_time st)
     else if on 1883%Z then
       mk_stats (total_connections st) al (rate_limited st)
                (http_attacks st) (telnet_attacks st) (ftp_attacks st)
                (u32_incr (mqtt_attacks st)) (start_time st)
     else
       mk_stats (total_connections st) al (rate_limited st)
                (http_attacks st) (telnet_attacks st) (ftp_attacks st)
                (mqtt_attacks st) (start_time st))
    h.

(** The public operations and the steps of the reactor that touch the state
    of [honeypot.c]. *)
Inductive honeypot_op : Set :=
| OpInit (flash_ok : bool) (loaded : list attack_log_t)
         (rate_limiter_ok : bool) (now : Z)
| OpStart (task_created : bool)
| OpStop
| OpGetStats (out_stats : option honeypot_stats_t)
| OpResetStats (now : Z)
| OpSetConfig (config : option honeypot_config_t)
| OpGetConfig (config : option honeypot_config_t)
| OpIncoming (rate_ok can_accept added : bool)
| OpCleanup
| OpUpdateStatistics (port : Z).

Definition honeypot_step (h : honeypot) (op : honeypot_op) : honeypot :=
  match op with
  | OpInit ok loaded rl now => (honeypot_init ok loaded rl now h).2
  | OpStart created => (honeypot_start created h).2
  | OpStop => (honeypot_stop h).2
  | OpGetStats _ => h
  | OpResetStats now => (honeypot_reset_stats now h).2
  | OpSetConfig c => (honeypot_set_config c h).2
  | OpGetConfig _ => h
  | OpIncoming r c a => handle_incoming_connection r c a h
  | OpCleanup => cleanup_stale_connections h
  | OpUpdateStatistics port => update_statistics port h
  end.

Definition honeypot_run (h : honeypot) (ops : list honeypot_op) : honeypot :=
  foldl honeypot_step h ops.

Definition is_reset (op : honeypot_op) : bool :=
  match op with OpResetStats _ => true | _ => false end.

End Honeypot.

(** * Properties *)

(** ** C strings *)

Module CLibFacts.
Import CLib.

Local Open Scope string_scope.

(** [append] is kept folded by the reduction tactics; these two equations
    unfold it. *)
Lemma app_nil (b : string) : EmptyString +:+ b = b.
Proof. reflexivity. Qed.

Lemma app_cons (x : ascii) (a b : string) :
  String x a +:+ b = String x (a +:+ b).
Proof. reflexivity. Qed.

Lemma crlf_app (r : string) : CRLF +:+ r = String "013" (String "010" r).
Proof. reflexivity. Qed.

Lemma str_drop_crlf (r : string) : str_drop 2 (CRLF +:+ r) = r.
Proof. reflexivity. Qed.


Lemma strlen_app (a b : string) : strlen (a +:+ b) = (strlen a + strlen b)%nat.
Proof.
  induction a as [|x a IH]; [done|]. rewrite app_cons. cbn.
  unfold strlen in IH. by rewrite IH.
Qed.

Lemma str_take_app (a b : string) : str_take (strlen a) (a +:+ b) = a.
Proof.
  unfold strlen. induction a as [|x a IH]; [by destruct b|].
  rewrite app_cons. cbn. by rewrite IH.
Qed.

Lemma str_drop_app (a b : string) (n : nat) :
  str_drop (strlen a + n) (a +:+ b) = str_drop n b.
Proof.
  unfold strlen. induction a as [|x a IH]; [done|]. rewrite app_cons. by cbn.
Qed.

Lemma str_drop_app_le (n : nat) : ∀ a b : string,
  (n ≤ strlen a)%nat → str_drop n (a +:+ b) = str_drop n a +:+ b.
Proof.
  induction n as [|n IH]; intros [|x a] b Hn; cbn in Hn; try done; try lia.
  rewrite app_cons. cbn. apply IH. unfold strlen. lia.
Qed.

Lemma strlen_drop (n : nat) : ∀ s : string,
  strlen (str_drop n s) = (strlen s - n)%nat.
Proof. induction n as [|n IH]; intros [|x s]; cbn; done. Qed.

Lemma strlen_take (n : nat) : ∀ s : string,
  strlen (str_take n s) = (n `min` strlen s)%nat.
Proof.
  induction n as [|n IH]; intros [|x s]; cbn; try done.
  unfold strlen in IH. by rewrite IH.
Qed.

Lemma strlen_skip_spaces (s : string) :
  (strlen (skip_spaces s) ≤ strlen s)%nat.
Proof.
  induction s as [|x s IH]; cbn; [done|].
  destruct (Ascii.eqb x " "); cbn; unfold strlen in *; lia.
Qed.

Lemma no_cr_drop (n : nat) : ∀ s : string,
  Http.no_cr s = true → Http.no_cr (str_drop n s) = true.
Proof.
  induction n as [|n IH]; intros [|x s] H; cbn in *; try done.
  apply andb_true_iff in H as [_ H]. by apply IH.
Qed.

Lemma no_cr_skip_spaces (s : string) :
  Http.no_cr s = true → Http.no_cr (skip_spaces s) = true.
Proof.
  induction s as [|x s IH]; intros H; cbn in *; [done|].
  destruct (Ascii.eqb x " "); [|done].
  apply andb_true_iff in H as [_ H]. by apply IH.
Qed.

Lemma skip_spaces_line (s r : string) :
  skip_spaces (s +:+ CRLF +:+ r) = skip_spaces s +:+ CRLF +:+ r.
Proof.
  induction s as [|x s IH]; [done|]. rewrite app_cons. cbn.
  destruct (Ascii.eqb x " "); [done|]. by rewrite app_cons.
Qed.

(** The first CRLF of a line without carriage returns is the one after it. *)
Lemma strstr_line (x r : string) :
  Http.no_cr x = true → strstr (x +:+ CRLF +:+ r) CRLF = Some (strlen x).
Proof.
  induction x as [|c x IH]; intros H; [done|].
  cbn in H. apply andb_true_iff in H as [Hc H].
  rewrite app_cons. cbn [strstr has_prefix CRLF].
  destruct (Ascii.eqb "013" c) eqn:Heq.
  { rewrite Ascii.eqb_sym in Heq. by rewrite Heq in Hc. }
  cbn [andb]. rewrite IH by done. done.
Qed.

(** Where [strstr] finds the needle, the needle fits. *)
Lemma strstr_bound (needle : string) : ∀ (hay : string) (off : nat),
  strstr hay needle = Some off → (off + strlen needle ≤ strlen hay)%nat.
Proof.
  assert (Hp : ∀ p s : string, has_prefix p s = true → (strlen p ≤ strlen s)%nat).
  { induction p as [|a p IH]; intros [|b s] H; cbn in *; try done; try lia.
    apply andb_true_iff in H as [_ H]. apply IH in H. unfold strlen in H. lia. }
  induction hay as [|c hay IH]; intros off H; cbn in H.
  - destruct (has_prefix needle EmptyString) eqn:E; [|done].
    apply Hp in E. injection H as <-. cbn in *. lia.
  - destruct (has_prefix needle (String c hay)) eqn:E.
    + apply Hp in E. injection H as <-. lia.
    + destruct (strstr hay needle) as [o|] eqn:E'; [|done].
      injection H as <-. specialize (IH o eq_refl). cbn. unfold strlen in *. lia.
Qed.

(** A header name for which the comparison at the end of a line is safe: no
    character of it folds to NUL or to a carriage return. *)
Fixpoint plain_name (name : string) : bool :=
  match name with
  | EmptyString => true
  | String c t =>
      negb (Ascii.eqb (tolower c) "013") && negb (Ascii.eqb (tolower c) Ascii.zero)
      && plain_name t
  end.

Lemma code_inj (a b : ascii) : code a = code b → a = b.
Proof.
  unfold code. intros H. apply N2Z.inj in H.
  rewrite <- (ascii_N_embedding a), <- (ascii_N_embedding b). by rewrite H.
Qed.

Lemma code_diff_zero (a b : ascii) : (code a - code b = 0)%Z ↔ a = b.
Proof.
  split; [|intros ->; lia]. intros H. apply code_inj. lia.
Qed.

(** Comparing a header name with the start of a line gives the same verdict
    whether or not the line is followed by the rest of the request. *)
Lemma strncasecmp_line (r : string) : ∀ (n : nat) (name line : string),
  plain_name name = true → (n ≤ strlen name)%nat → Http.no_cr line = true →
  (strncasecmp (line +:+ CRLF +:+ r) name n = 0%Z
   ↔ strncasecmp line name n = 0%Z).
Proof.
  induction n as [|n IH]; intros name line Hname Hn Hline.
  { by cbn. }
  destruct name as [|cb tb]; [cbn in Hn; lia|].
  cbn in Hname. apply andb_true_iff in Hname as [Hcb Htb].
  apply andb_true_iff in Hcb as [Hcr Hnul].
  apply negb_true_iff, Ascii.eqb_neq in Hcr, Hnul.
  destruct line as [|ca ta].
  - rewrite app_nil, crlf_app. cbn [strncasecmp].
    change (tolower "013"%char) with "013"%char.
    destruct (Ascii.eqb "013" (tolower cb)) eqn:E.
    { apply Ascii.eqb_eq in E. by symmetry in E. }
    rewrite code_diff_zero.
    split; [intros H; by symmetry in H|].
    intros H. exfalso. apply Hnul. apply code_inj.
    replace (code Ascii.zero) with 0%Z by done. lia.
  - rewrite app_cons. cbn [strncasecmp].
    cbn in Hline. apply andb_true_iff in Hline as [_ Hline].
    destruct (Ascii.eqb (tolower ca) (tolower cb)); [|done].
    apply IH; [done| cbn in Hn; unfold strlen; lia | done].
Qed.

(** A line that matches a plain name is at least as long as the name. *)
Lemma strncasecmp_length : ∀ (n : nat) (name line : string),
  plain_name name = true → (n ≤ strlen name)%nat →
  strncasecmp line name n = 0%Z → (n ≤ strlen line)%nat.
Proof.
  induction n as [|n IH]; intros name line Hname Hn H; [lia|].
  destruct name as [|cb tb]; [cbn in Hn; lia|].
  cbn in Hname. apply andb_true_iff in Hname as [Hcb Htb].
  apply andb_true_iff in Hcb as [Hcr Hnul].
  apply negb_true_iff, Ascii.eqb_neq in Hnul.
  destruct line as [|ca ta]; cbn in H.
  - exfalso. apply Hnul. apply code_inj.
    replace (code Ascii.zero) with 0%Z by done. lia.
  - destruct (Ascii.eqb (tolower ca) (tolower cb)) eqn:E.
    + cbn. apply IH in H; [unfold strlen in *; lia|done|].
      cbn in Hn; unfold strlen; lia.
    + apply code_diff_zero in H. apply Ascii.eqb_neq in E. done.
Qed.

Lemma str_app_nil_r (a : string) : a +:+ EmptyString = a.
Proof. induction a as [|x a IH]; [done|]. by rewrite app_cons, IH. Qed.

Lemma strchr_app (c : ascii) (b : string) : ∀ a : string,
  strchr a c = None →
  strchr (a +:+ b) c = (λ n, strlen a + n)%nat <$> strchr b c.
Proof.
  induction a as [|x a IH]; intros Ha.
  - rewrite app_nil. by destruct (strchr b c).
  - cbn [strchr] in Ha. rewrite app_cons. cbn [strchr].
    destruct (Ascii.eqb x c); [done|].
    destruct (strchr a c) eqn:Hac; [done|].
    rewrite IH by done. by destruct (strchr b c).
Qed.

Lemma str_drop_apps (a b c : string) :
  str_drop (strlen a + strlen b) (a +:+ b +:+ c) = c.
Proof.
  rewrite str_drop_app.
  replace (strlen b) with (strlen b + 0)%nat by lia.
  by rewrite str_drop_app.
Qed.

End CLibFacts.

(** ** The attack logger *)

Module AttackLoggerFacts.
Import AttackLogger.

(** The ring holds a history [h] (newest first): slot [head - 1 - i], taken
    modulo the capacity, holds the [i]-th newest record. *)
Definition ring_inv (s : logger) (h : list attack_log_t) : Prop :=
  length (log_buffer s) = MAX_LOG_ENTRIES
  ∧ buffer_head s < MAX_LOG_ENTRIES
  ∧ buffer_count s = length h
  ∧ length h ≤ MAX_LOG_ENTRIES
  ∧ ∀ i, i < length h →
      log_buffer s !! ((buffer_head s + MAX_LOG_ENTRIES - 1 - i)
                       mod MAX_LOG_ENTRIES) = h !! i.



Ltac unfold_cap := unfold MAX_LOG_ENTRIES in *.

Lemma ring_inv_boot : ring_inv logger_boot [].
Proof.
  unfold ring_inv; cbn [logger_boot log_buffer buffer_head buffer_count length].
  rewrite length_replicate. unfold_cap.
  repeat split; try lia. all: intros i Hi; lia.
Qed.

Lemma ring_inv_init s h ok loaded now :
  ring_inv s h →
  length loaded ≤ MAX_LOG_ENTRIES →
  ring_inv (attack_logger_init ok loaded now s).2
           (history_step h (OpInit ok loaded now)).
Proof.
  intros (Hlen & Hhead & Hcnt & Hh & Hslots) Hfit.
  unfold attack_logger_init. destruct ok; cbn [negb snd history_step]; [|done].
  destruct loaded as [|r l].
  - rewrite bool_decide_eq_false_2 by (cbn; lia). cbn. done.
  - rewrite bool_decide_eq_true_2 by (cbn; lia).
    set (ld := r :: l) in *.
    unfold ring_inv; cbn [log_buffer buffer_head buffer_count].
    rewrite length_app, length_drop, length_reverse, Hlen.
    unfold_cap. repeat split; try lia.
    intros i Hi.
    rewrite reverse_lookup by done.
    replace ((length ld mod 100 + 100 - 1 - i) mod 100)
      with (length ld - S i) by lia.
    apply lookup_app_l. lia.
Qed.

Lemma ring_inv_log s h e now :
  ring_inv s h →
  ring_inv (attack_logger_log (Some e) now s).2
           (history_step h (OpLog (Some e) now)).
Proof.
  intros (Hlen & Hhead & Hcnt & Hh & Hslots).
  unfold ring_inv, attack_logger_log.
  cbn [snd history_step log_buffer buffer_head buffer_count].
  rewrite length_insert, length_take. cbn [length].
  assert (Hnew : (if bool_decide (buffer_count s < MAX_LOG_ENTRIES)
                  then buffer_count s + 1 else buffer_count s)
                 = MAX_LOG_ENTRIES `min` S (length h)).
  { case_bool_decide; lia. }
  rewrite Hnew. unfold_cap. repeat split; try lia.
  intros i Hi.
  rewrite lookup_take_lt by lia.
  destruct i as [|i].
  - replace (((buffer_head s + 1) mod 100 + 100 - 1 - 0) mod 100)
      with (buffer_head s) by lia.
    cbn. apply list_lookup_insert_eq. lia.
  - replace (((buffer_head s + 1) mod 100 + 100 - 1 - S i) mod 100)
      with ((buffer_head s + 100 - 1 - i) mod 100) by lia.
    rewrite list_lookup_insert_ne by lia.
    cbn. apply Hslots. lia.
Qed.

Lemma ring_inv_clear s h :
  ring_inv s h → ring_inv (attack_logger_clear s).2 (history_step h OpClear).
Proof.
  intros (Hlen & _). unfold ring_inv; cbn. unfold_cap.
  repeat split; try lia. all: intros i Hi; lia.
Qed.

Lemma ring_inv_step s h op :
  ring_inv s h → load_fits op = true →
  ring_inv (logger_step s op) (history_step h op).
Proof.
  intros Hinv Hfit. destruct op as [ok loaded now|[e|] now|]; cbn [logger_step].
  - apply ring_inv_init; [done|]. cbn in Hfit. by apply bool_decide_eq_true in Hfit.
  - by apply ring_inv_log.
  - done.
  - by apply ring_inv_clear.
Qed.

Lemma ring_inv_run ops : ∀ s h,
  ring_inv s h → forallb load_fits ops = true →
  ring_inv (logger_run s ops) (foldl history_step h ops).
Proof.
  induction ops as [|op ops IH]; intros s h Hinv Hfit; [done|].
  cbn in Hfit. apply andb_true_iff in Hfit as [Hop Hrest].
  cbn. apply IH; [|done]. by apply ring_inv_step.
Qed.

(** The copy loop writes the [n] records found by walking back from [idx]. *)
Lemma copy_recent_spec buf : ∀ n i idx logs xs,
  length xs = n → n ≤ MAX_LOG_ENTRIES → idx < MAX_LOG_ENTRIES →
  i + n ≤ length logs →
  (∀ k, k < n →
     buf !! ((idx + MAX_LOG_ENTRIES - 1 - k) mod MAX_LOG_ENTRIES) = xs !! k) →
  copy_recent n i idx buf logs = take i logs ++ xs ++ drop (i + n) logs.
Proof.
  induction n as [|n IH]; intros i idx logs xs Hxs Hn Hidx Hroom Hslots.
  - destruct xs; [|done]. cbn. rewrite Nat.add_0_r. by rewrite take_drop.
  - destruct xs as [|x xs]; [done|]. cbn [copy_recent].
    set (idx' := if bool_decide (idx = 0) then MAX_LOG_ENTRIES - 1 else idx - 1).
    assert (Hidx' : idx' = (idx + MAX_LOG_ENTRIES - 1 - 0) mod MAX_LOG_ENTRIES).
    { subst idx'. unfold_cap. case_bool_decide; lia. }
    assert (Hx : buf !!! idx' = x).
    { apply list_lookup_total_correct. rewrite Hidx'.
      rewrite Hslots by lia. done. }
    rewrite Hx.
    rewrite (IH (S i) idx' (<[i:=x]> logs) xs).
    + rewrite drop_insert_lt by lia.
      rewrite (take_S_r _ _ x) by (apply list_lookup_insert_eq; lia).
      rewrite take_insert_ge by lia.
      rewrite <- app_assoc. replace (i + S n) with (S i + n) by lia. done.
    + cbn in Hxs. lia.
    + lia.
    + subst idx'. unfold_cap. case_bool_decide; lia.
    + rewrite length_insert. lia.
    + intros k Hk. transitivity ((x :: xs) !! S k); [|done].
      rewrite <- Hslots by lia. f_equal. rewrite Hidx'. unfold_cap. lia.
Qed.

Lemma get_recent_of_ring s h out n k :
  ring_inv s h → n `min` buffer_count s ≤ length out →
  attack_logger_get_recent (Some out) n (Some k) s
  = (ESP_OK, Some (take (n `min` buffer_count s) h
                   ++ drop (n `min` buffer_count s) out),
     Some (n `min` buffer_count s)).
Proof.
  intros (Hlen & Hhead & Hcnt & Hh & Hslots) Hroom.
  unfold attack_logger_get_recent.
  set (count := if bool_decide (buffer_count s < n) then buffer_count s else n).
  assert (Hcount : count = n `min` buffer_count s).
  { subst count. case_bool_decide; lia. }
  rewrite Hcount. case_bool_decide as Hz.
  - rewrite Hz. cbn. by rewrite drop_0.
  - rewrite (copy_recent_spec _ _ _ _ _ (take (n `min` buffer_count s) h)).
    + by rewrite take_0.
    + rewrite length_take. lia.
    + lia.
    + done.
    + lia.
    + intros j Hj. rewrite lookup_take_lt by lia. apply Hslots. lia.
Qed.

(** C2: in every state reached from power-on by [init] (flash loading at
    most [MAX_LOG_ENTRIES] records), [log] and [clear], full and wrapped
    rings included, [attack_logger_get_recent] asked for [n] records, with an
    array that has room for the [min n count] it writes, returns [ESP_OK],
    reports [min n count] records and has copied exactly the [min n count]
    newest records of the history to the front of the array, newest first
    (the rest of the array is untouched); asked for the capacity or more it
    returns [count] records. *)
Theorem get_recent_newest_first (ops : list logger_op)
    (out : list attack_log_t) (n k : nat) :
  forallb load_fits ops = true →
  n `min` buffer_count (logger_run logger_boot ops) ≤ length out →
  let s := logger_run logger_boot ops in
  let m := n `min` buffer_count s in
  attack_logger_get_recent (Some out) n (Some k) s
    = (ESP_OK, Some (take m (history ops) ++ drop m out), Some m)
  ∧ length (history ops) = buffer_count s
  ∧ buffer_count s ≤ MAX_LOG_ENTRIES
  ∧ (MAX_LOG_ENTRIES ≤ n → m = buffer_count s).
Proof.
  intros Hfit Hroom s m.
  pose proof (ring_inv_run ops logger_boot [] ring_inv_boot Hfit) as Hinv.
  fold s in Hinv. fold (history ops) in Hinv.
  split; [by apply get_recent_of_ring|].
  destruct Hinv as (_ & _ & Hcnt & Hh & _). subst m. lia.
Qed.

Lemma get_recent_newest_first_witness :
  forallb load_fits (sample_logs 101) = true
  ∧ 3 `min` buffer_count (logger_run logger_boot (sample_logs 101))
    ≤ length (replicate 3 attack_log_zero)
  ∧ attack_logger_get_recent (Some (replicate 3 attack_log_zero)) 3 (Some 0)
      (logger_run logger_boot (sample_logs 101))
    = (ESP_OK,
       Some [sample_record 101; sample_record 100; sample_record 99],
       Some 3).
Proof.
  split; [vm_compute; reflexivity|]. split; [vm_compute; lia|].
  pose proof (get_recent_newest_first (sample_logs 101)
                (replicate 3 attack_log_zero) 3 0) as H.
  cbv zeta in H. destruct H as [H _]; [vm_compute; reflexivity|vm_compute; lia|].
  rewrite H. vm_compute. reflexivity.
Defined.









(** C9: [attack_logger_clear] is idempotent on the whole logger state (ring
    slots, head, tail, count, statistics, flash mirror), from any state and so
    from every reachable one; a run that ends in two clears ends in the same
    state as the run that ends in one. *)
Theorem clear_idempotent (s : logger) (ops : list logger_op) :
  attack_logger_clear (attack_logger_clear s).2 = attack_logger_clear s
  ∧ logger_run s (ops ++ [OpClear; OpClear]) = logger_run s (ops ++ [OpClear]).
Proof.
  split; [reflexivity|].
  unfold logger_run. rewrite !foldl_app. reflexivity.
Qed.

End AttackLoggerFacts.

(** ** JSON for remote transmission *)

(** ** Reading JSON back *)

Module JsonSpecFacts.
Import CLib CLibFacts AttackLogger JsonSpec.
Local Open Scope string_scope.
























End JsonSpecFacts.

(** ** [attack_logger_format_json] *)

Module JsonFacts.
Import CLib CLibFacts AttackLogger JsonSpec JsonSpecFacts.

Local Open Scope string_scope.

Lemma str_take_all (n : nat) : ∀ s : string,
  (strlen s ≤ n)%nat → str_take n s = s.
Proof.
  induction n as [|n IH]; intros [|c s] H; cbn in *; try done; try lia.
  rewrite IH; [done|]. unfold strlen. lia.
Qed.

(** The string fields fit their arrays (with the NUL) and the port is a
    [uint16_t]: what holds of every record the services build. *)
Definition fields_fit (log : attack_log_t) : Prop :=
  (strlen (source_ip log) < SOURCE_IP_SIZE
   ∧ strlen (service log) < SERVICE_SIZE
   ∧ strlen (username log) < USERNAME_SIZE
   ∧ strlen (password log) < PASSWORD_SIZE
   ∧ strlen (user_agent log) < USER_AGENT_SIZE
   ∧ strlen (payload_hash log) < PAYLOAD_HASH_SIZE
   ∧ strlen (metadata log) < METADATA_SIZE)%nat
  ∧ (0 ≤ target_port log < 65536)%Z.

(** The longest JSON text of a record whose fields fit. *)
Definition JSON_MAX_LENGTH : nat := 869.

Lemma json_text_length (time_str : string) (log : attack_log_t) :
  strlen (json_text time_str log)
  = (135 + strlen time_str + strlen (source_ip log)
     + strlen (fmt_d (target_port log)) + strlen (service log)
     + strlen (username log) + strlen (password log)
     + strlen (user_agent log) + strlen (payload_hash log)
     + strlen (metadata log))%nat.
Proof.
  unfold json_text, json_member. rewrite !strlen_app.
  change (strlen DQUOTE) with 1%nat.
  cbn [strlen String.length]. lia.
Qed.

Lemma strftime_length (max : nat) (fmt : string) (t : tm) :
  (0 < max → strlen (strftime max fmt t) < max)%nat.
Proof. intros Hmax. unfold strftime. case_bool_decide; [done|]. cbn. lia. Qed.

Lemma dec_digits_length : ∀ (fuel : nat) (n : Z) (k : nat),
  (0 ≤ n < 10 ^ Z.of_nat k)%Z → (1 ≤ k)%nat →
  (strlen (dec_digits fuel n) ≤ k)%nat.
Proof.
  induction fuel as [|fuel IH]; intros n k Hn Hk; cbn [dec_digits].
  { cbn. lia. }
  rewrite strlen_app. change (strlen (String _ EmptyString)) with 1%nat.
  destruct (Z.ltb_spec n 10) as [Hlt|Hge]; [cbn; lia|].
  destruct k as [|[|k]]; [lia| |].
  { change (10 ^ Z.of_nat 1)%Z with 10%Z in Hn. lia. }
  specialize (IH (n / 10)%Z (S k)).
  rewrite (Nat2Z.inj_succ (S k)), Z.pow_succ_r in Hn by lia.
  assert (strlen (dec_digits fuel (n / 10)) ≤ S k)%nat; [|lia].
  apply IH; [|lia]. split; [apply Z.div_pos; lia|].
  apply Z.div_lt_upper_bound; lia.
Qed.

Lemma fmt_d_uint16 (z : Z) :
  (0 ≤ z < 65536)%Z → (strlen (fmt_d z) ≤ 5)%nat.
Proof.
  intros Hz. unfold fmt_d.
  rewrite (proj2 (Z.ltb_ge z 0)) by lia.
  apply dec_digits_length; [|lia].
  change (10 ^ Z.of_nat 5)%Z with 100000%Z. lia.
Qed.

Lemma format_json_result (tz_offset : Z) (l : attack_log_t) (old : string)
    (buffer_size : nat) :
  attack_logger_format_json tz_offset (Some l) (Some old) buffer_size
  = (if bool_decide
          (strlen (json_text (json_time_str tz_offset l) l) < buffer_size)%nat
     then (ESP_OK, Some (json_text (json_time_str tz_offset l) l))
     else (ESP_ERR_INVALID_SIZE,
           Some (if bool_decide (buffer_size = 0%nat) then old
                 else str_take (buffer_size - 1)
                        (json_text (json_time_str tz_offset l) l)))).
Proof.
  unfold attack_logger_format_json, snprintf.
  generalize (json_text (json_time_str tz_offset l) l). intros json.
  fold (strlen json).
  rewrite (proj2 (Z.ltb_ge (Z.of_nat (strlen json)) 0)) by lia.
  cbn [orb].
  destruct (decide (strlen json < buffer_size)%nat) as [Hfit|Hfit].
  - rewrite (proj2 (Z.leb_gt _ _)) by lia.
    rewrite (bool_decide_eq_true_2 _ Hfit).
    rewrite bool_decide_eq_false_2 by lia.
    rewrite str_take_all by lia. reflexivity.
  - rewrite (proj2 (Z.leb_le _ _)) by lia.
    rewrite (bool_decide_eq_false_2 _ Hfit). reflexivity.
Qed.

Lemma json_text_bound (tz_offset : Z) (l : attack_log_t) :
  fields_fit l →
  (strlen (json_text (json_time_str tz_offset l) l) ≤ JSON_MAX_LENGTH)%nat.
Proof.
  intros [(Hip & Hsv & Hun & Hpw & Hua & Hph & Hmd) Hport].
  rewrite json_text_length.
  assert (Hts : (strlen (json_time_str tz_offset l) < 32)%nat).
  { unfold json_time_str. apply strftime_length. lia. }
  pose proof (fmt_d_uint16 _ Hport) as Hd.
  revert Hip Hsv Hun Hpw Hua Hph Hmd Hts Hd.
  generalize (strlen (json_time_str tz_offset l)) (strlen (source_ip l))
    (strlen (fmt_d (target_port l))) (strlen (service l))
    (strlen (username l)) (strlen (password l)) (strlen (user_agent l))
    (strlen (payload_hash l)) (strlen (metadata l)).
  unfold JSON_MAX_LENGTH, SOURCE_IP_SIZE, SERVICE_SIZE, USERNAME_SIZE,
    PASSWORD_SIZE, USER_AGENT_SIZE, PAYLOAD_HASH_SIZE, METADATA_SIZE.
  lia.
Qed.




(** C7 on the code: the timestamp member is the broken-down {e local} time
    of the device with a literal [Z] appended.  It is the UTC rendering of
    [timestamp + tz_offset]; one hour east of UTC, the record stamped 0 is
    rendered [1970-01-01T01:00:00Z], while its UTC rendering is
    [1970-01-01T00:00:00Z]. *)
Theorem json_timestamp_is_local_time :
  (∀ (tz_offset : Z) (log : attack_log_t),
     json_time_str tz_offset log = iso8601_utc (timestamp log + tz_offset))
  ∧ attack_logger_format_json 3600 (Some (sample_record 0))
      (Some EmptyString) 512
    = (ESP_OK, Some (json_text "1970-01-01T01:00:00Z" (sample_record 0)))
  ∧ iso8601_utc (timestamp (sample_record 0)) = "1970-01-01T00:00:00Z"
  ∧ json_time_str 0 (sample_record 0) = "1970-01-01T00:00:00Z".
Proof.
  split.
  { intros tz_offset log.
    exact (eq_refl (strftime 32 "%Y-%m-%dT%H:%M:%SZ"
                      (gmtime (timestamp log + tz_offset)))). }
  repeat split; vm_compute; reflexivity.
Qed.

End JsonFacts.

(** ** The HTTP service *)

Module HttpFacts.
Import CLib CLibFacts Http.

Local Open Scope string_scope.

Lemma header_name_is_line (name line r : string) :
  plain_name name = true → no_cr line = true →
  header_name_is name (line +:+ CRLF +:+ r) = header_name_is name line.
Proof.
  intros Hname Hline. unfold header_name_is. apply bool_decide_ext.
  by apply strncasecmp_line.
Qed.

Lemma header_name_is_length (name line : string) :
  plain_name name = true → header_name_is name line = true →
  (strlen name ≤ strlen line)%nat.
Proof.
  intros Hname H. unfold header_name_is in H. apply bool_decide_eq_true in H.
  by apply (strncasecmp_length _ name).
Qed.

(** The text that follows the request line: the header lines, the empty
    line, the body. *)
Definition after_request_line (headers : list string) (body : string)
  : string :=
  foldr (λ line rest, line +:+ CRLF +:+ rest) (CRLF +:+ body) headers.

Lemma line_not_empty (x r : string) : x +:+ CRLF +:+ r ≠ EmptyString.
Proof. by destruct x. Qed.

(** The value of a header: what follows the name and the blanks after it. *)
Lemma header_value_line (n : nat) (line r : string) :
  (n ≤ strlen line)%nat → no_cr line = true →
  skip_spaces (str_drop n (line +:+ CRLF +:+ r))
  = skip_spaces (str_drop n line) +:+ CRLF +:+ r
  ∧ no_cr (skip_spaces (str_drop n line)) = true.
Proof.
  intros Hn Hline. rewrite str_drop_app_le by done.
  rewrite skip_spaces_line. split; [done|].
  by apply no_cr_skip_spaces, no_cr_drop.
Qed.

(** The header loop, run on a request made of lines, does to the two values
    what the lines do one after the other. *)
Lemma parse_headers_lines (body : string) : ∀ (headers : list string)
    (fuel : nat) (x ua auth : string),
  no_cr x = true → forallb header_line_ok headers = true →
  (length headers < fuel)%nat →
  parse_headers fuel (x +:+ CRLF +:+ after_request_line headers body) ua auth
  = foldl header_line_step (ua, auth) headers.
Proof.
  induction headers as [|l ls IH]; intros fuel x ua auth Hx Hok Hfuel;
    (destruct fuel as [|fuel]; [cbn in Hfuel; lia|]);
    cbn [after_request_line foldr foldl parse_headers];
    rewrite (bool_decide_eq_false_2 _ (line_not_empty _ _));
    rewrite strstr_line by done; rewrite str_drop_app, str_drop_crlf.
  - rewrite crlf_app. reflexivity.
  - fold (after_request_line ls body).
    cbn in Hok. apply andb_true_iff in Hok as [Hl Hls].
    apply andb_true_iff in Hl as [Hne Hl].
    apply negb_true_iff, String.eqb_neq in Hne.
    change (bool_decide (strncasecmp ?p "User-Agent:" 11 = 0%Z))
      with (header_name_is "User-Agent:" p).
    change (bool_decide (strncasecmp ?p "Authorization:" 14 = 0%Z))
      with (header_name_is "Authorization:" p).
    rewrite !header_name_is_line by done.
    unfold header_line_step at 2. cbn [fst snd].
    destruct (header_name_is "User-Agent:" l) eqn:Hua;
      [|destruct (header_name_is "Authorization:" l) eqn:Hauth].
    + apply header_name_is_length in Hua; [|done].
      destruct (header_value_line 11 l (after_request_line ls body))
        as [-> Hv]; [done..|].
      rewrite strstr_line by done. unfold strncpy. rewrite str_take_app.
      case_bool_decide; apply IH; (done || cbn in Hfuel; lia).
    + apply header_name_is_length in Hauth; [|done].
      destruct (header_value_line 14 l (after_request_line ls body))
        as [-> Hv]; [done..|].
      rewrite strstr_line by done. unfold strncpy. rewrite str_take_app.
      case_bool_decide; apply IH; (done || cbn in Hfuel; lia).
    + destruct l as [|c l]; [done|].
      cbn in Hl. apply andb_true_iff in Hl as [Hc Hl].
      rewrite app_cons. cbn [has_prefix CRLF].
      rewrite Ascii.eqb_sym. apply negb_true_iff in Hc. rewrite Hc.
      cbn [andb]. rewrite <- app_cons.
      apply IH; [|done|cbn in Hfuel; lia].
      cbn. by rewrite Hc.
Qed.

Lemma strlen_after_request_line (body : string) (headers : list string) :
  (length headers + 2 ≤ strlen (after_request_line headers body))%nat.
Proof.
  induction headers as [|l ls IH]; cbn [after_request_line foldr length].
  - rewrite crlf_app. cbn. lia.
  - fold (after_request_line ls body). rewrite !strlen_app.
    replace (strlen CRLF) with 2%nat by done. lia.
Qed.

Lemma header_loop_pass_advances (ptr ua auth p u a : string) :
  header_loop_pass ptr ua auth = Some (p, u, a) →
  (strlen p + 2 ≤ strlen ptr)%nat.
Proof.
  unfold header_loop_pass. case_bool_decide; [done|].
  destruct (strstr ptr CRLF) as [off|] eqn:Hoff; [|done].
  apply strstr_bound in Hoff. replace (strlen CRLF) with 2%nat in Hoff by done.
  cbv zeta.
  assert (Hp1 : (strlen (str_drop (off + 2) ptr) + 2 ≤ strlen ptr)%nat).
  { rewrite strlen_drop. lia. }
  revert Hp1. generalize (str_drop (off + 2) ptr). intros p1 Hp1.
  assert (Hval : ∀ n, (strlen (skip_spaces (str_drop n p1)) + 2
                       ≤ strlen ptr)%nat).
  { intros n. pose proof (strlen_skip_spaces (str_drop n p1)) as Hs.
    rewrite strlen_drop in Hs. lia. }
  generalize (Hval 11%nat) (Hval 14%nat).
  generalize (skip_spaces (str_drop 11 p1)) (skip_spaces (str_drop 14 p1)).
  intros v11 v14 H11 H14 Hpass.
  repeat case_bool_decide; repeat case_match; try done;
    injection Hpass as <- <- <-; done.
Qed.

Lemma parse_headers_pass (fuel : nat) (ptr ua auth : string) :
  parse_headers (S fuel) ptr ua auth
  = match header_loop_pass ptr ua auth with
    | Some (p, u, a) => parse_headers fuel p u a
    | None => (ua, auth)
    end.
Proof.
  cbn [parse_headers]. unfold header_loop_pass.
  repeat case_bool_decide; repeat case_match; done.
Qed.

Lemma header_loop_exit (k : nat) : ∀ ptr ua auth : string,
  (strlen ptr ≤ k)%nat →
  ∃ (n : nat) (p u a : string),
    (2 * n ≤ strlen ptr)%nat
    ∧ header_loop_passes n ptr ua auth = Some (p, u, a)
    ∧ header_loop_pass p u a = None
    ∧ ∀ fuel : nat, (n ≤ fuel)%nat → parse_headers fuel ptr ua auth = (u, a).
Proof.
  induction k as [|k IH]; intros ptr ua auth Hk;
    destruct (header_loop_pass ptr ua auth) as [[[p1 u1] a1]|] eqn:Hpass.
  - apply header_loop_pass_advances in Hpass. lia.
  - exists 0%nat, ptr, ua, auth. split; [lia|]. split; [done|].
    split; [done|]. intros [|fuel] _; [done|].
    by rewrite parse_headers_pass, Hpass.
  - pose proof (header_loop_pass_advances _ _ _ _ _ _ Hpass) as Hadv.
    destruct (IH p1 u1 a1) as (n & p & u & a & Hn & Hrun & Hexit & Hfuel);
      [lia|].
    exists (S n), p, u, a. split; [lia|]. split.
    { cbn [header_loop_passes]. by rewrite Hpass. }
    split; [done|]. intros [|fuel] Hle; [lia|].
    rewrite parse_headers_pass, Hpass. apply Hfuel. lia.
  - exists 0%nat, ptr, ua, auth. split; [lia|]. split; [done|].
    split; [done|]. intros [|fuel] _; [done|].
    by rewrite parse_headers_pass, Hpass.
Qed.

(** X2: the header loop of [parse_http_request] terminates, and the fuel of
    the model plays no part in its result.  A pass that does not leave the
    loop moves the pointer forward by two characters or more; so the loop is
    left after [n] passes, [n] at most half the length of the text, and
    [parse_headers] returns the two arrays as they are when the loop is left
    for every amount of fuel from [n] on, [strlen] of the text among them. *)
Theorem header_loop_terminates (ptr ua auth : string) :
  (∀ p u a : string,
     header_loop_pass ptr ua auth = Some (p, u, a) →
     (strlen p + 2 ≤ strlen ptr)%nat)
  ∧ ∃ (n : nat) (p u a : string),
      (2 * n ≤ strlen ptr)%nat
      ∧ header_loop_passes n ptr ua auth = Some (p, u, a)
      ∧ header_loop_pass p u a = None
      ∧ (∀ fuel : nat,
           (n ≤ fuel)%nat → parse_headers fuel ptr ua auth = (u, a))
      ∧ parse_headers (strlen ptr) ptr ua auth = (u, a).
Proof.
  split; [intros p u a; apply header_loop_pass_advances|].
  destruct (header_loop_exit (strlen ptr) ptr ua auth)
    as (n & p & u & a & Hn & Hrun & Hexit & Hfuel); [done|].
  exists n, p, u, a. repeat split; try done. apply Hfuel. lia.
Qed.

Lemma header_loop_terminates_witness :
  ∃ (n : nat) (p u a : string),
    (2 * n ≤ strlen scenario1_request)%nat
    ∧ header_loop_passes n scenario1_request EmptyString EmptyString
      = Some (p, u, a)
    ∧ header_loop_pass p u a = None
    ∧ (∀ fuel : nat,
         (n ≤ fuel)%nat →
         parse_headers fuel scenario1_request EmptyString EmptyString
         = (u, a))
    ∧ parse_headers (strlen scenario1_request) scenario1_request
        EmptyString EmptyString = (u, a).
Proof.
  exact (proj2 (header_loop_terminates scenario1_request EmptyString
                  EmptyString)).
Defined.
(** C5, as amended: for every request made of a request line, header lines
    and a body (lines free of carriage returns, header lines not empty, each
    line ended by CRLF, an empty line before the body), the values
    [parse_http_request] extracts are what the header lines give one after the
    other: a line whose name is [User-Agent:] or [Authorization:] in any case
    sets the value to the text after the name and the blanks that follow it
    when that text is shorter than 255 characters, and a header whose value
    has 255 characters or more changes nothing (the value of an earlier such
    header, or the empty string, stays). *)
Theorem headers_extracted_line_by_line (request_line : string)
    (headers : list string) (body : string) :
  no_cr request_line = true →
  forallb header_line_ok headers = true →
  (10 ≤ strlen (assemble request_line headers body))%nat →
  ∃ req : request,
    parse_http_request (Some (assemble request_line headers body)) = Some req
    ∧ (req_user_agent req, req_authorization req)
      = foldl header_line_step (EmptyString, EmptyString) headers.
Proof.
  intros Hrl Hok Hlen. unfold parse_http_request.
  rewrite bool_decide_eq_false_2 by lia.
  destruct (sscanf_s_s 15 127 (assemble request_line headers body))
    as [m p].
  unfold assemble in *. fold (after_request_line headers body) in *.
  rewrite parse_headers_lines; [|done..|].
  - destruct (foldl header_line_step (EmptyString, EmptyString) headers)
      as [ua auth].
    by eexists.
  - pose proof (strlen_after_request_line body headers).
    rewrite !strlen_app. lia.
Qed.

Lemma headers_extracted_line_by_line_witness :
  ∃ req : request,
    parse_http_request
      (Some (assemble "GET /admin HTTP/1.1"
               ["Host: 10.0.0.1";
                "user-AGENT:    Mozilla/5.0";
                "Authorization: Basic YWRtaW46YWRtaW4=";
                "User-Agent: " +:+ str_repeat 255 "A"]
               EmptyString)) = Some req
    ∧ (req_user_agent req, req_authorization req)
      = ("Mozilla/5.0", "Basic YWRtaW46YWRtaW4=").
Proof.
  exact (headers_extracted_line_by_line "GET /admin HTTP/1.1"
           ["Host: 10.0.0.1";
            "user-AGENT:    Mozilla/5.0";
            "Authorization: Basic YWRtaW46YWRtaW4=";
            "User-Agent: " +:+ str_repeat 255 "A"]
           EmptyString eq_refl eq_refl
           ltac:(vm_compute; lia)).
Defined.

(** C5, as stated, fails: a [User-Agent] header whose value has 255
    characters leaves the extracted value empty, and not equal to the first
    255 characters of the header value. *)
Lemma long_user_agent_is_dropped :
  req_user_agent
    <$> parse_http_request
          (Some (assemble "GET / HTTP/1.1"
                   ["User-Agent: " +:+ str_repeat 255 "A"] EmptyString))
  = Some EmptyString
  ∧ str_take 255 (str_repeat 255 "A") ≠ EmptyString.
Proof. split; [vm_compute; reflexivity|vm_compute; discriminate]. Qed.

(** The text of the two replies. *)
Lemma fake_response_text :
  (snprintf EmptyString 2048
     (HTTP_RESPONSE_TEMPLATE 403 "Forbidden"
        (Z.of_nat (strlen FAKE_LOGIN_HTML)) FAKE_LOGIN_HTML)).1
  = forbidden_reply.
Proof. vm_compute. reflexivity. Qed.

Lemma error_response_text :
  (snprintf EmptyString 512
     (HTTP_RESPONSE_TEMPLATE 400 "Bad Request"
        (Z.of_nat
           (strlen
              "<html><body><h1>Error</h1><p>An error occurred.</p></body></html>"))
        "<html><body><h1>Error</h1><p>An error occurred.</p></body></html>")).1
  = bad_request_reply.
Proof. vm_compute. reflexivity. Qed.

Lemma send_fake_response_eq (sock_fd : Z) (w : world) :
  send_fake_response sock_fd w = send sock_fd forbidden_reply w.
Proof. unfold send_fake_response. by rewrite fake_response_text. Qed.

Lemma send_error_response_400 (sock_fd : Z) (w : world) :
  send_error_response sock_fd 400 "Bad Request" w
  = send sock_fd bad_request_reply w.
Proof. unfold send_error_response. by rewrite error_response_text. Qed.

(** *** The [Authorization] header among the header lines *)

Lemma authorization_not_user_agent (line : string) :
  header_name_is "Authorization:" line = true →
  header_name_is "User-Agent:" line = false.
Proof.
  unfold header_name_is. intros H. apply bool_decide_eq_true in H.
  apply bool_decide_eq_false. destruct line as [|c t]; [done|].
  cbn [strlen String.length strncasecmp] in *.
  destruct (Ascii.eqb (tolower c) (tolower "A")) eqn:Ha.
  - apply Ascii.eqb_eq in Ha. rewrite Ha. vm_compute. discriminate.
  - apply Ascii.eqb_neq in Ha. by apply code_diff_zero in H.
Qed.

Lemma header_fold_other (post : list string) : ∀ acc : string * string,
  forallb (λ l, negb (header_name_is "Authorization:" l)) post = true →
  (foldl header_line_step acc post).2 = acc.2.
Proof.
  induction post as [|l post IH]; intros acc Hpost; [done|].
  cbn in Hpost. apply andb_true_iff in Hpost as [Hl Hpost].
  apply negb_true_iff in Hl. cbn [foldl]. rewrite IH by done.
  unfold header_line_step. rewrite Hl.
  destruct (header_name_is "User-Agent:" l); [|done].
  by case_bool_decide.
Qed.

Lemma header_fold_authorization (pre post : list string) (line : string) :
  header_name_is "Authorization:" line = true →
  forallb (λ l, negb (header_name_is "Authorization:" l)) post = true →
  (foldl header_line_step (EmptyString, EmptyString) (pre ++ line :: post)).2
  = if bool_decide (strlen (skip_spaces (str_drop 14 line)) < 255)%nat
    then skip_spaces (str_drop 14 line)
    else (foldl header_line_step (EmptyString, EmptyString) pre).2.
Proof.
  intros Hname Hpost. rewrite foldl_app. cbn [foldl].
  rewrite header_fold_other by done.
  unfold header_line_step at 1.
  rewrite (authorization_not_user_agent _ Hname), Hname.
  by case_bool_decide.
Qed.

Lemma strlen_after_header (body : string) (line : string) (post : list string) :
  ∀ pre : list string,
    (strlen line + 4
     ≤ strlen (after_request_line (pre ++ line :: post) body))%nat.
Proof.
  induction pre as [|l pre IH]; cbn [app after_request_line foldr].
  - fold (after_request_line post body). rewrite !strlen_app.
    pose proof (strlen_after_request_line body post).
    replace (strlen CRLF) with 2%nat by done. lia.
  - fold (after_request_line (pre ++ line :: post) body).
    rewrite !strlen_app. lia.
Qed.

Lemma parse_assembled (request_line : string) (headers : list string)
    (body : string) :
  no_cr request_line = true →
  forallb header_line_ok headers = true →
  (10 ≤ strlen (assemble request_line headers body))%nat →
  parse_http_request (Some (assemble request_line headers body))
  = Some (mk_request
            (sscanf_s_s 15 127 (assemble request_line headers body)).1
            (sscanf_s_s 15 127 (assemble request_line headers body)).2
            (foldl header_line_step (EmptyString, EmptyString) headers).1
            (foldl header_line_step (EmptyString, EmptyString) headers).2).
Proof.
  intros Hrl Hok Hlen. unfold parse_http_request.
  rewrite bool_decide_eq_false_2 by lia.
  destruct (sscanf_s_s 15 127 (assemble request_line headers body))
    as [m p].
  unfold assemble in *. fold (after_request_line headers body) in *.
  rewrite parse_headers_lines; [|done..|].
  - by destruct (foldl header_line_step (EmptyString, EmptyString) headers).
  - pose proof (strlen_after_request_line body headers).
    rewrite !strlen_app. lia.
Qed.

(** X1: a value of three characters or more is never copied.  When the
    first occurrence of [pattern] in the request is followed by [value], and
    [value] ends where the code looks for its end (at the first [&] of the
    text after the pattern; without any [&], at the first blank; without
    either, at the end of the request), [extract_field] stores the
    URL-decoded [value] if it is shorter than [sizeof(char * ) - 1 = 3]
    characters, and leaves the field as it was otherwise. *)
Theorem extract_field_short_values (pre pattern value rest field : string) :
  strstr (pre +:+ pattern +:+ value +:+ rest) pattern = Some (strlen pre) →
  strchr value "&" = None →
  match rest with
  | EmptyString => strchr value " " = None
  | String c _ =>
      c = "&"%char
      ∨ (c = " "%char ∧ strchr value " " = None ∧ strchr rest "&" = None)
  end →
  extract_field (pre +:+ pattern +:+ value +:+ rest) pattern field
  = if bool_decide (strlen value < 3)%nat then url_decode value else field.
Proof.
  intros Hfound Hamp Hrest. unfold extract_field. rewrite Hfound.
  rewrite str_drop_apps. cbv zeta.
  assert (Hlen :
    match strchr (value +:+ rest) "&" with
    | Some e => e
    | None => match strchr (value +:+ rest) " " with
              | Some e => e
              | None => strlen (value +:+ rest)
              end
    end = strlen value).
  { destruct rest as [|c r].
    - rewrite str_app_nil_r, Hamp, Hrest. done.
    - destruct Hrest as [->|(-> & Hsp & Hnone)].
      + rewrite strchr_app by done. cbn. lia.
      + rewrite strchr_app by done. rewrite Hnone. cbn [fmap option_fmap option_map].
        rewrite strchr_app by done. cbn. lia. }
  rewrite Hlen. unfold strncpy. rewrite str_take_app.
  change (SIZEOF_CHAR_PTR - 1)%nat with 3%nat. done.
Qed.

Lemma extract_field_short_values_witness :
  extract_field "user=ab&password=1234" "user=" "N/A" = "ab"
  ∧ extract_field "username=admin&password=1234" "username=" "N/A" = "N/A"
  ∧ extract_field "a=1&pwd=%41 HTTP" "pwd=" "N/A" = "N/A".
Proof.
  split; [|split].
  - exact (extract_field_short_values EmptyString "user=" "ab"
             "&password=1234" "N/A" eq_refl eq_refl (or_introl eq_refl)).
  - exact (extract_field_short_values EmptyString "username=" "admin"
             "&password=1234" "N/A" eq_refl eq_refl (or_introl eq_refl)).
  - exact (extract_field_short_values "a=1&" "pwd=" "%41" " HTTP" "N/A"
             eq_refl eq_refl
             (or_intror (conj eq_refl (conj eq_refl eq_refl)))).
Defined.

Section WithHash.

Variable generate_md5_hash : string → string.

(** C4, as amended: [http_service_handle_request] replies 400 exactly when
    [parse_http_request] fails, which is exactly when the request is [NULL]
    or its text (the C string at [data]) is shorter than 10 characters (the
    request line is not checked against any grammar); every other request
    gets the 403 reply with the canned admin-panel page and the headers
    [Content-Type: text/html], [Connection: close] and
    [Server: Apache/2.4.41 (Ubuntu)].  A suspicious path adds a warning and
    changes nothing else; a rejected request leaves the attack log as it
    was. *)
Theorem reply_by_request_length (sock_fd : Z) (data : option string)
    (len : nat) (client_ip : string) (port now : Z) (w : world) :
  let w' := http_service_handle_request generate_md5_hash sock_fd data len
              client_ip port now w in
  let short := match data with
               | Some d => bool_decide (strlen (c_str d) < 10)%nat
               | None => true
               end in
  match parse_http_request (c_str <$> data) with
  | None =>
      short = true
      ∧ sent w' = (sent w ++ [(sock_fd, bad_request_reply)])%list
      ∧ log_store w' = log_store w
  | Some req =>
      short = false
      ∧ sent w' = (sent w ++ [(sock_fd, forbidden_reply)])%list
      ∧ warnings w'
        = (warnings w
           ++ if suspicious_path (path req)
              then ["Potential path traversal attack from " +:+ client_ip
                    +:+ ": " +:+ path req]
              else [])%list
  end.
Proof.
  intros w' short. subst w' short.
  unfold http_service_handle_request, parse_http_request.
  rewrite send_error_response_400.
  destruct data as [d|]; [|done].
  cbn [fmap option_fmap option_map]. generalize (c_str d). intros text.
  case_bool_decide; [done|].
  destruct (sscanf_s_s 15 127 text) as [m p].
  destruct (parse_headers (strlen text) text EmptyString EmptyString)
    as [ua auth].
  cbn [path]. unfold log_http_attack. rewrite !send_fake_response_eq.
  destruct (suspicious_path p); cbn [send ESP_LOGW sent warnings];
    [done|]. by rewrite app_nil_r.
Qed.

Lemma handled_request_is_logged (sock_fd : Z) (buffer : string) (len : nat)
    (client_ip : string) (port now : Z) (w : world) (req : request) :
  parse_http_request (Some (c_str buffer)) = Some req →
  log_store (http_service_handle_request generate_md5_hash sock_fd
               (Some buffer) len client_ip port now w)
  = (AttackLogger.attack_logger_log
       (Some (http_log_entry generate_md5_hash client_ip port (method req)
                (path req) (req_user_agent req) (req_authorization req)
                buffer len now))
       now (log_store w)).2.
Proof.
  intros Hparse. unfold http_service_handle_request.
  cbn [fmap option_fmap option_map]. rewrite Hparse.
  unfold log_http_attack. by destruct (suspicious_path (path req)).
Qed.

Lemma http_log_entry_credentials (client_ip : string) (port : Z)
    (meth pth ua auth buffer : string) (len : nat) (now : Z) :
  let entry := http_log_entry generate_md5_hash client_ip port meth pth ua
                 auth buffer len now in
  (meth ≠ "POST" →
   username entry = "N/A" ∧ password entry = password_from auth)
  ∧ (meth = "POST" →
     password entry
     = foldl (λ field pattern, extract_field (c_str buffer) pattern field)
             (password_from auth) password_patterns
     ∧ (Forall (λ pattern, strstr (c_str buffer) pattern = None)
               password_patterns →
        password entry = password_from auth)).
Proof.
  intros entry. subst entry. unfold http_log_entry, strcmp_eq, password_from.
  assert (Hpw : (if bool_decide (auth ≠ EmptyString)
                 then strncpy auth (PASSWORD_SIZE - 1)
                 else strncpy "N/A" (PASSWORD_SIZE - 1))
                = (if bool_decide (auth = EmptyString) then "N/A"
                   else str_take (PASSWORD_SIZE - 1) auth)).
  { destruct (decide (auth = EmptyString)) as [->|Hne]; [done|].
    rewrite (bool_decide_eq_true_2 _ Hne).
    by rewrite (bool_decide_eq_false_2 _ Hne). }
  rewrite Hpw. split.
  - intros Hm. apply String.eqb_neq in Hm. by rewrite Hm.
  - intros Hm. apply String.eqb_eq in Hm. rewrite Hm.
    cbn [extract_credentials_from_post password]. split; [done|].
    intros Hnone.
    generalize (if bool_decide (auth = EmptyString) then "N/A"
                else str_take (PASSWORD_SIZE - 1) auth).
    induction Hnone as [|pat pats Hpat _ IH]; intros field; [done|].
    cbn [foldl]. unfold extract_field at 2. rewrite Hpat. apply IH.
Qed.

(** C10, as amended: the handler logs one record for every request that
    [parse_http_request] accepts.  Its username is the sentinel [N/A]
    whenever the method is not [POST].  Its password starts as
    [password_from] of the [Authorization] value the parser extracted (that
    value cut to 63 characters, the sentinel when the value is empty); a
    request whose method is not [POST] keeps it, and for a [POST] the
    credential extraction runs over it, leaving it alone when none of the
    password keys occurs in the request.  For a request made of a request
    line, header lines and an empty line, whose last [Authorization] header
    (name in any case) is [line], the extracted value is the text of [line]
    after the name and the blanks that follow it when that text is shorter
    than 255 characters; when the text has 255 characters or more the header
    is skipped, and the value is what the header lines before it gave (the
    empty string when there was none, so that the password is [N/A]). *)
Theorem authorization_header_is_password (sock_fd : Z) (buffer : string)
    (len : nat) (client_ip : string) (port now : Z) (w : world) :
  (∀ req : request,
     parse_http_request (Some (c_str buffer)) = Some req →
     ∃ entry : attack_log_t,
       log_store (http_service_handle_request generate_md5_hash sock_fd
                    (Some buffer) len client_ip port now w)
       = (AttackLogger.attack_logger_log (Some entry) now (log_store w)).2
       ∧ (method req ≠ "POST" →
          username entry = "N/A"
          ∧ password entry = password_from (req_authorization req))
       ∧ (method req = "POST" →
          password entry
          = foldl (λ field pattern,
                     extract_field (c_str buffer) pattern field)
                  (password_from (req_authorization req)) password_patterns
          ∧ (Forall (λ pattern, strstr (c_str buffer) pattern = None)
                    password_patterns →
             password entry = password_from (req_authorization req))))
  ∧ (∀ (request_line : string) (pre : list string) (line : string)
       (post : list string) (body : string),
       let value := skip_spaces (str_drop 14 line) in
       let authorization :=
         if bool_decide (strlen value < 255)%nat then value
         else (foldl header_line_step (EmptyString, EmptyString) pre).2 in
       c_str buffer = assemble request_line (pre ++ line :: post) body →
       no_cr request_line = true →
       forallb header_line_ok (pre ++ line :: post) = true →
       header_name_is "Authorization:" line = true →
       forallb (λ l, negb (header_name_is "Authorization:" l)) post = true →
       ∃ (req : request) (entry : attack_log_t),
         parse_http_request (Some (c_str buffer)) = Some req
         ∧ req_authorization req = authorization
         ∧ log_store (http_service_handle_request generate_md5_hash sock_fd
                        (Some buffer) len client_ip port now w)
           = (AttackLogger.attack_logger_log (Some entry) now
                (log_store w)).2
         ∧ (method req ≠ "POST" →
            username entry = "N/A"
            ∧ password entry = password_from authorization)
         ∧ (method req = "POST" →
            Forall (λ pattern, strstr (c_str buffer) pattern = None)
                   password_patterns →
            password entry = password_from authorization)).
Proof.
  assert (Hany : ∀ req : request,
    parse_http_request (Some (c_str buffer)) = Some req →
    ∃ entry : attack_log_t,
      log_store (http_service_handle_request generate_md5_hash sock_fd
                   (Some buffer) len client_ip port now w)
      = (AttackLogger.attack_logger_log (Some entry) now (log_store w)).2
      ∧ (method req ≠ "POST" →
         username entry = "N/A"
         ∧ password entry = password_from (req_authorization req))
      ∧ (method req = "POST" →
         password entry
         = foldl (λ field pattern,
                    extract_field (c_str buffer) pattern field)
                 (password_from (req_authorization req)) password_patterns
         ∧ (Forall (λ pattern, strstr (c_str buffer) pattern = None)
                   password_patterns →
            password entry = password_from (req_authorization req)))).
  { intros req Hparse.
    eexists. split; [by apply handled_request_is_logged|].
    apply http_log_entry_credentials. }
  split; [exact Hany|].
  intros request_line pre line post body value authorization
    Hbuf Hrl Hok Hname Hpost.
  assert (Hparse : ∃ req : request,
    parse_http_request (Some (c_str buffer)) = Some req
    ∧ req_authorization req = authorization).
  { rewrite Hbuf, parse_assembled; [| done | done |].
    - eexists. split; [done|]. cbn [req_authorization].
      by apply header_fold_authorization.
    - pose proof (strlen_after_header body line post pre) as Hlen.
      unfold assemble. fold (after_request_line (pre ++ line :: post) body).
      rewrite !strlen_app.
      apply header_name_is_length in Hname; [|done].
      change (strlen "Authorization:") with 14%nat in Hname. lia. }
  destruct Hparse as (req & Hparse & Hauth).
  destruct (Hany req Hparse) as (entry & Hlog & Hget & Hpost').
  exists req, entry. rewrite <- Hauth.
  split; [done|]. split; [done|]. split; [done|]. split; [done|].
  intros Hm Hnone. by apply Hpost'.
Qed.

(** C1 on the code: the request of scenario 1 gets the 403 reply and leaves
    one record in the log, with service [HTTP], the user agent [curl/7.81]
    and the metadata of the specification, but with the sentinel [N/A] as
    username and as password: [admin] and [1234] are not shorter than
    [sizeof(username) - 1], the size of a pointer less one. *)
Theorem scenario1_on_the_code (now : Z) :
  let w := http_service_handle_request generate_md5_hash 5
             (Some scenario1_request) (strlen scenario1_request)
             "192.0.2.9" 80 now empty_world in
  sent w = [(5%Z, forbidden_reply)]
  ∧ log_store w
    = (AttackLogger.attack_logger_log
         (Some (mk_attack_log now "192.0.2.9" 80 "HTTP" "N/A" "N/A"
                  "curl/7.81" (generate_md5_hash scenario1_request)
                  "Method: POST, Path: /login"))
         now AttackLogger.logger_boot).2
  ∧ AttackLogger.buffer_count (log_store w) = 1%nat.
Proof. cbv zeta. split; [|split]; vm_compute; reflexivity. Qed.

End WithHash.

Lemma authorization_header_is_password_witness :
  ∃ (req : request) (entry : attack_log_t),
    parse_http_request
      (Some (c_str (assemble "GET /admin HTTP/1.1"
                      (["Host: 10.0.0.1"]
                       ++ "authorization:  Basic YWRtaW46YWRtaW4="
                       :: ["User-Agent: curl/7.81"]) EmptyString)))
    = Some req
    ∧ req_authorization req = "Basic YWRtaW46YWRtaW4="
    ∧ log_store
        (http_service_handle_request sample_md5 5
           (Some (assemble "GET /admin HTTP/1.1"
                    (["Host: 10.0.0.1"]
                     ++ "authorization:  Basic YWRtaW46YWRtaW4="
                     :: ["User-Agent: curl/7.81"]) EmptyString))
           99 "192.0.2.9" 80 1700000000 empty_world)
      = (AttackLogger.attack_logger_log (Some entry) 1700000000
           (log_store empty_world)).2
    ∧ (method req ≠ "POST" →
       username entry = "N/A"
       ∧ password entry = password_from "Basic YWRtaW46YWRtaW4=")
    ∧ (method req = "POST" →
       Forall (λ pattern,
                 strstr (c_str (assemble "GET /admin HTTP/1.1"
                                  (["Host: 10.0.0.1"]
                                   ++ "authorization:  Basic YWRtaW46YWRtaW4="
                                   :: ["User-Agent: curl/7.81"])
                                  EmptyString)) pattern = None)
              password_patterns →
       password entry = password_from "Basic YWRtaW46YWRtaW4=").
Proof.
  exact (proj2 (authorization_header_is_password sample_md5 5
                  (assemble "GET /admin HTTP/1.1"
                     (["Host: 10.0.0.1"]
                      ++ "authorization:  Basic YWRtaW46YWRtaW4="
                      :: ["User-Agent: curl/7.81"]) EmptyString)
                  99 "192.0.2.9" 80 1700000000 empty_world)
           "GET /admin HTTP/1.1" ["Host: 10.0.0.1"]
           "authorization:  Basic YWRtaW46YWRtaW4="
           ["User-Agent: curl/7.81"] EmptyString
           eq_refl eq_refl eq_refl eq_refl eq_refl).
Defined.

(** C10, as stated, fails: a [GET] request whose [Authorization] header has
    a value of 255 characters is logged with the password [N/A], not with
    the first 63 characters of the value. *)
Lemma long_authorization_is_dropped :
  password
    <$> AttackLogger.log_buffer
          (log_store
             (http_service_handle_request sample_md5 5
                (Some long_authorization_request)
                (strlen long_authorization_request) "192.0.2.9" 80
                1700000000 empty_world)) !! 0%nat
  = Some "N/A"
  ∧ AttackLogger.buffer_count
      (log_store
         (http_service_handle_request sample_md5 5
            (Some long_authorization_request)
            (strlen long_authorization_request) "192.0.2.9" 80
            1700000000 empty_world)) = 1%nat
  ∧ str_take (PASSWORD_SIZE - 1) (str_repeat 255 "B") ≠ "N/A".
Proof.
  split; [vm_compute; reflexivity|].
  split; [vm_compute; reflexivity|]. vm_compute. discriminate.
Qed.

(** C4, as stated, fails: twelve letters match no request line, and the
    reply is the 403 page. *)
Lemma garbage_request_gets_403 :
  spec_request_line "AAAAAAAAAAAA" = false
  ∧ sent (http_service_handle_request sample_md5 5 (Some "AAAAAAAAAAAA") 12
            "192.0.2.9" 80 1700000000 empty_world)
    = [(5%Z, forbidden_reply)].
Proof. split; vm_compute; reflexivity. Qed.

End HttpFacts.

(** ** The supervisor *)

Module HoneypotFacts.
Import Honeypot.

(** C8, as stated, fails: after one accepted connection the counter is 1,
    and [honeypot_reset_stats] brings it back to 0. *)
Lemma reset_stats_lowers_total_connections :
  total_connections
    (stats (honeypot_run honeypot_boot
              [OpInit true [] true 100; OpStart true;
               OpIncoming true true true])) = 1%Z
  ∧ total_connections
      (stats (honeypot_run honeypot_boot
                [OpInit true [] true 100; OpStart true;
                 OpIncoming true true true; OpResetStats 200])) = 0%Z.
Proof. split; vm_compute; reflexivity. Qed.

(** What a step does to the counter. *)
Lemma total_connections_step (h : honeypot) (op : honeypot_op) :
  total_connections (stats (honeypot_step h op))
  = match op with
    | OpResetStats _ => 0%Z
    | OpIncoming true true true => u32_incr (total_connections (stats h))
    | _ => total_connections (stats h)
    end.
Proof.
  destruct op as [ok loaded rl now|created| | |now|[c|]| |r c a| |port];
    cbn [honeypot_step]; try done.
  - unfold honeypot_init.
    destruct (AttackLogger.attack_logger_init ok loaded now (logger h))
      as [err lg].
    destruct err; cbn; try done. by destruct rl.
  - unfold honeypot_start. by repeat case_match.
  - unfold honeypot_stop. by repeat case_match.
  - unfold handle_incoming_connection. by destruct r, c, a.
  - unfold update_statistics. cbn. by repeat case_match.
Qed.

(** C8, as amended: a step of a run changes [total_connections] in two
    cases only: an incoming connection that passes the rate limiter, finds
    room and is added by the socket manager adds one modulo 2^32, and
    [honeypot_reset_stats] sets the counter to 0; every other public
    operation or reactor step leaves it as it was.  So every step other than
    [honeypot_reset_stats] leaves the counter at or above its value before
    the step as long as the counter is below 2^32 - 1; at 2^32 - 1 an
    accepted connection wraps it to 0. *)
Theorem total_connections_monotone (h : honeypot) (op : honeypot_op) :
  let before := total_connections (stats h) in
  let after := total_connections (stats (honeypot_step h op)) in
  after = match op with
          | OpResetStats _ => 0%Z
          | OpIncoming true true true => ((before + 1) mod 2 ^ 32)%Z
          | _ => before
          end
  ∧ (is_reset op = false → (before < 2 ^ 32 - 1)%Z → (before ≤ after)%Z)
  ∧ (before = (2 ^ 32 - 1)%Z →
     total_connections
       (stats (honeypot_step h (OpIncoming true true true))) = 0%Z).
Proof.
  intros before after. subst before after.
  rewrite !total_connections_step. unfold u32_incr, UINT32_MOD.
  split; [by destruct op as [| | | | | | |[] [] []| |]|].
  split.
  - intros Hop Hmax.
    destruct op as [| | | | | | |[] [] []| |]; try done; lia.
  - intros ->. reflexivity.
Qed.

Lemma total_connections_monotone_witness :
  (total_connections
     (stats (honeypot_run honeypot_boot
               [OpInit true [] true 100; OpIncoming true true true]))
   ≤ total_connections
       (stats (honeypot_step
                 (honeypot_run honeypot_boot
                    [OpInit true [] true 100; OpIncoming true true true])
                 (OpIncoming true true true))))%Z.
Proof.
  exact (proj1 (proj2 (total_connections_monotone
                         (honeypot_run honeypot_boot
                            [OpInit true [] true 100;
                             OpIncoming true true true])
                         (OpIncoming true true true)))
           eq_refl ltac:(vm_compute; reflexivity)).
Defined.

End HoneypotFacts.

(** * Further properties *)

(** ** The attack logger: retention and statistics *)

Module LoggerExtras.
Import AttackLogger AttackLoggerFacts.

(** A run of successful [attack_logger_log] calls, one per record and time. *)
Definition log_ops (later : list (attack_log_t * Z)) : list logger_op :=
  (λ et, OpLog (Some et.1) et.2) <$> later.

Lemma take_app_take {A} (n : nat) (a b : list A) :
  take n (a ++ take n b) = take n (a ++ b).
Proof. rewrite !take_app, take_take. f_equal. f_equal. lia. Qed.

Lemma history_logs (later : list (attack_log_t * Z)) : ∀ h : list attack_log_t,
  length h ≤ MAX_LOG_ENTRIES →
  foldl history_step h (log_ops later)
  = take MAX_LOG_ENTRIES (reverse later.*1 ++ h).
Proof.
  induction later as [|[e t] later IH]; intros h Hh.
  - cbn. by rewrite take_ge.
  - cbn [log_ops fmap list_fmap foldl history_step fst snd].
    fold (log_ops later). rewrite IH by (rewrite length_take; lia).
    rewrite take_app_take. cbn [fmap list_fmap fst]. rewrite reverse_cons.
    by rewrite <- app_assoc.
Qed.

(** The content of the ring after a run that ends with [e] logged and then
    the records of [later]. *)
Lemma history_after_log (ops : list logger_op) (e : attack_log_t) (t : Z)
    (later : list (attack_log_t * Z)) :
  history (ops ++ OpLog (Some e) t :: log_ops later)
  = take MAX_LOG_ENTRIES (reverse later.*1 ++ e :: history ops).
Proof.
  unfold history. rewrite foldl_app. cbn [foldl history_step].
  rewrite history_logs by (rewrite length_take; lia).
  change (e :: foldl history_step [] ops)
    with ([e] ++ foldl history_step [] ops).
  rewrite (app_assoc _ [e]), take_app_take. by rewrite <- app_assoc.
Qed.

Lemma load_fits_logs (later : list (attack_log_t * Z)) :
  forallb load_fits (log_ops later) = true.
Proof. induction later as [|[e t] later IH]; [done|]. by cbn. Qed.

(** X3: a record that [attack_logger_log] accepted stays in reach of
    [attack_logger_get_recent]: after [k] further log calls, [k] below the
    capacity and no [init] or [clear] in between, a request for more than [k]
    records returns it at index [k]. *)
Theorem logged_record_stays_visible (ops : list logger_op)
    (e : attack_log_t) (t : Z) (later : list (attack_log_t * Z))
    (out : list attack_log_t) (n k : nat) :
  forallb load_fits ops = true →
  length later < MAX_LOG_ENTRIES →
  length later < n ≤ length out →
  ∃ (got : list attack_log_t) (m : nat),
    attack_logger_get_recent (Some out) n (Some k)
      (logger_run logger_boot (ops ++ OpLog (Some e) t :: log_ops later))
    = (ESP_OK, Some got, Some m)
    ∧ length later < m
    ∧ got !! length later = Some e.
Proof.
  intros Hfit Hlater [Hn Hroom].
  set (run := ops ++ OpLog (Some e) t :: log_ops later).
  assert (Hrun : forallb load_fits run = true).
  { subst run. rewrite forallb_app, Hfit. cbn. apply load_fits_logs. }
  pose proof (ring_inv_run run logger_boot [] ring_inv_boot Hrun) as Hinv.
  fold (history run) in Hinv.
  pose proof Hinv as (_ & _ & Hcnt & Hlen & _).
  assert (Hnth : history run !! length later = Some e).
  { subst run. rewrite history_after_log.
    rewrite lookup_take_lt by done.
    rewrite lookup_app_r by (rewrite length_reverse, length_fmap; lia).
    rewrite length_reverse, length_fmap, Nat.sub_diag. done. }
  assert (Hk : length later < buffer_count (logger_run logger_boot run)).
  { rewrite Hcnt. by apply lookup_lt_Some in Hnth. }
  eexists _, _. split; [apply get_recent_of_ring; [exact Hinv|lia]|].
  split; [lia|].
  rewrite lookup_app_l by (rewrite length_take; lia).
  rewrite lookup_take_lt by lia. exact Hnth.
Qed.

Lemma logged_record_stays_visible_witness :
  ∃ (got : list attack_log_t) (m : nat),
    attack_logger_get_recent (Some (replicate 100 attack_log_zero)) 100
      (Some 0)
      (logger_run logger_boot
         (sample_logs 150 ++ OpLog (Some (sample_record 7)) 7
          :: log_ops [(sample_record 8, 8%Z); (sample_record 9, 9%Z)]))
    = (ESP_OK, Some got, Some m)
    ∧ 2 < m
    ∧ got !! 2 = Some (sample_record 7).
Proof.
  apply (logged_record_stays_visible (sample_logs 150) (sample_record 7) 7
           [(sample_record 8, 8%Z); (sample_record 9, 9%Z)]
           (replicate 100 attack_log_zero) 100 0).
  - vm_compute. reflexivity.
  - vm_compute. lia.
  - vm_compute. lia.
Defined.

(** X4: the ring forgets: once [MAX_LOG_ENTRIES] or more records have been
    logged in a row, [attack_logger_get_recent] returns the newest of them
    and nothing of what the ring held before, whatever the earlier run was. *)
Theorem ring_holds_the_newest (ops : list logger_op)
    (later : list (attack_log_t * Z)) (out : list attack_log_t) (n k : nat) :
  forallb load_fits ops = true →
  MAX_LOG_ENTRIES ≤ length later →
  n ≤ length out →
  attack_logger_get_recent (Some out) n (Some k)
    (logger_run logger_boot (ops ++ log_ops later))
  = (ESP_OK,
     Some (take (n `min` MAX_LOG_ENTRIES) (reverse later.*1)
           ++ drop (n `min` MAX_LOG_ENTRIES) out),
     Some (n `min` MAX_LOG_ENTRIES)).
Proof.
  intros Hfit Hlater Hroom.
  set (run := ops ++ log_ops later).
  assert (Hrun : forallb load_fits run = true).
  { subst run. rewrite forallb_app, Hfit. apply load_fits_logs. }
  pose proof (ring_inv_run run logger_boot [] ring_inv_boot Hrun) as Hinv.
  fold (history run) in Hinv.
  pose proof Hinv as (_ & _ & Hcnt & Hlen & _).
  assert (Hhist : history run = take MAX_LOG_ENTRIES (reverse later.*1)).
  { subst run. unfold history. rewrite foldl_app.
    fold (history ops). rewrite history_logs.
    - rewrite take_app_le; [done|]. rewrite length_reverse, length_fmap. lia.
    - pose proof (ring_inv_run ops logger_boot [] ring_inv_boot Hfit)
        as (_ & _ & _ & H & _). exact H. }
  assert (Hc : buffer_count (logger_run logger_boot run) = MAX_LOG_ENTRIES).
  { rewrite Hcnt, Hhist, length_take, length_reverse, length_fmap. lia. }
  rewrite (get_recent_of_ring _ _ _ _ _ Hinv) by lia.
  rewrite Hc, Hhist, take_take.
  replace ((n `min` MAX_LOG_ENTRIES) `min` MAX_LOG_ENTRIES)
    with (n `min` MAX_LOG_ENTRIES) by lia.
  done.
Qed.

Lemma ring_holds_the_newest_witness :
  attack_logger_get_recent (Some (replicate 2 attack_log_zero)) 2 (Some 0)
    (logger_run logger_boot
       (sample_session
        ++ log_ops ((λ t, (sample_record t, t)) <$> seqZ 1 120)))
  = (ESP_OK, Some [sample_record 120; sample_record 119], Some 2).
Proof.
  rewrite (ring_holds_the_newest sample_session
             ((λ t, (sample_record t, t)) <$> seqZ 1 120)
             (replicate 2 attack_log_zero) 2 0);
    [vm_compute; reflexivity|vm_compute; reflexivity|vm_compute; lia
    |vm_compute; lia].
Defined.

(** Successful log calls, and runs without [clear]. *)
Definition is_log (op : logger_op) : bool :=
  match op with OpLog (Some _) _ => true | _ => false end.

Definition is_clear (op : logger_op) : bool :=
  match op with OpClear => true | _ => false end.

Definition count_logs (ops : list logger_op) : nat :=
  length (filter (λ op, is_log op = true) ops).

Lemma total_logged_run (mid : list logger_op) : ∀ s : logger,
  forallb (λ op, negb (is_clear op)) mid = true →
  (0 ≤ total_logged (stats s) < UINT32_MOD)%Z →
  total_logged (stats (logger_run s mid))
  = ((total_logged (stats s) + Z.of_nat (count_logs mid)) mod UINT32_MOD)%Z.
Proof.
  unfold count_logs.
  induction mid as [|op mid IH]; intros s Hmid Hs.
  { cbn. rewrite Z.add_0_r, Z.mod_small; done. }
  cbn in Hmid. apply andb_true_iff in Hmid as [Hop Hmid].
  cbn [logger_run foldl]. fold (logger_run (logger_step s op) mid).
  destruct op as [ok loaded now|[e|] now|]; [| | |done].
  - assert (Hst : total_logged (stats (logger_step s (OpInit ok loaded now)))
                  = total_logged (stats s)).
    { cbn [logger_step]. unfold attack_logger_init.
      destruct ok; [|done]. cbn [negb snd]. by case_bool_decide. }
    rewrite IH by (rewrite ?Hst; done). rewrite Hst.
    rewrite filter_cons_False by done. done.
  - rewrite IH.
    + rewrite filter_cons_True by done. cbn [logger_step attack_logger_log snd stats total_logged length].
      unfold u32_incr. rewrite Zplus_mod_idemp_l. f_equal. lia.
    + done.
    + cbn [logger_step attack_logger_log snd stats total_logged].
      unfold u32_incr. apply Z.mod_pos_bound. done.
  - rewrite IH by done. rewrite filter_cons_False by done. done.
Qed.

(** X5: [attack_logger_clear] resets the counter of the statistics; from
    then on [total_logged] counts the calls of [attack_logger_log] with a
    record, modulo 2^32: calls with [NULL] and calls of [attack_logger_init]
    in between do not move it. *)
Theorem total_logged_counts_logs (pre mid : list logger_op) :
  forallb (λ op, negb (is_clear op)) mid = true →
  total_logged (stats (logger_run logger_boot (pre ++ OpClear :: mid)))
  = (Z.of_nat (count_logs mid) mod UINT32_MOD)%Z.
Proof.
  intros Hmid. unfold logger_run. rewrite foldl_app. cbn [foldl].
  fold (logger_run logger_boot pre).
  fold (logger_run (logger_step (logger_run logger_boot pre) OpClear) mid).
  rewrite total_logged_run; [done|done|]. cbn. done.
Qed.

Lemma total_logged_counts_logs_witness :
  total_logged
    (stats (logger_run logger_boot
              (sample_logs 5
               ++ OpClear
                  :: [OpLog (Some (sample_record 1)) 1; OpLog None 2;
                      OpInit true [sample_record 0] 3;
                      OpLog (Some (sample_record 4)) 4])))
  = 2%Z.
Proof.
  exact (total_logged_counts_logs (sample_logs 5)
           [OpLog (Some (sample_record 1)) 1; OpLog None 2;
            OpInit true [sample_record 0] 3;
            OpLog (Some (sample_record 4)) 4] eq_refl).
Defined.

End LoggerExtras.

(** ** The HTTP service: decoding, parsing bounds, the records built *)

Module HttpExtras.
Import CLib CLibFacts Http HttpFacts.

Local Open Scope string_scope.

(** *** [url_decode] *)

Lemma url_decode_bytes_plain (c : ascii) (t : string) :
  c ≠ "%"%char → c ≠ "+"%char →
  url_decode_bytes (String c t) = String c (url_decode_bytes t).
Proof.
  intros Hp Hq. apply Ascii.eqb_neq in Hp, Hq.
  cbn [url_decode_bytes]. rewrite Hp, Hq.
  by destruct t as [|a [|b rest]].
Qed.

Lemma url_decode_bytes_plus (t : string) :
  url_decode_bytes (String "+" t) = String " " (url_decode_bytes t).
Proof. by destruct t as [|a [|b rest]]. Qed.

Lemma url_decode_bytes_percent (a b : ascii) (rest : string) :
  isxdigit a = true → isxdigit b = true →
  url_decode_bytes (String "%" (String a (String b rest)))
  = String (hex_byte a b) (url_decode_bytes rest).
Proof. intros Ha Hb. cbn [url_decode_bytes]. rewrite Ha, Hb. done. Qed.

Lemma strlen_c_str (s : string) : (strlen (c_str s) ≤ strlen s)%nat.
Proof.
  unfold strlen. induction s as [|c s IH]; cbn; [done|].
  destruct (Ascii.eqb c zero); cbn; lia.
Qed.

(** One step of the decoder: a character is written, and the input moves on
    by one character or, for an escape, by three. *)
Lemma url_decode_bytes_step (c : ascii) (t : string) :
  (∃ x : ascii, url_decode_bytes (String c t) = String x (url_decode_bytes t))
  ∨ (∃ (a b x : ascii) (rest : string),
       t = String a (String b rest)
       ∧ url_decode_bytes (String c t) = String x (url_decode_bytes rest)).
Proof.
  destruct t as [|a [|b rest]]; cbn [url_decode_bytes].
  - left. destruct (Ascii.eqb c "+"); by eexists.
  - left. destruct (Ascii.eqb c "+"); by eexists.
  - destruct (Ascii.eqb c "%" && isxdigit a && isxdigit b).
    + right. by eexists _, _, _, _.
    + left. destruct (Ascii.eqb c "+"); by eexists.
Qed.

Lemma strlen_url_decode_bytes : ∀ (n : nat) (s : string),
  (strlen s ≤ n)%nat → (strlen (url_decode_bytes s) ≤ strlen s)%nat.
Proof.
  unfold strlen.
  induction n as [|n IH]; intros s Hn.
  { destruct s; [done|cbn in Hn; lia]. }
  destruct s as [|c t]; [done|]. cbn [String.length] in Hn.
  destruct (url_decode_bytes_step c t)
    as [[x ->]|(a & b & x & rest & -> & ->)]; cbn [String.length] in *.
  - pose proof (IH t ltac:(lia)). lia.
  - pose proof (IH rest ltac:(lia)). lia.
Qed.


(** The form encoding of a string: a blank becomes [+], letters, digits and
    [- _ . ~] stay, every other byte becomes [%] and two upper-case
    hexadecimal digits. *)
Definition hex_digit (n : Z) : ascii :=
  ascii_of_N (Z.to_N (if (n <? 10)%Z then 48 + n else 55 + n)%Z).

Definition unreserved (c : ascii) : bool :=
  isdigit c || in_range "a" "z" c || in_range "A" "Z" c
  || Ascii.eqb c "-" || Ascii.eqb c "_" || Ascii.eqb c "." || Ascii.eqb c "~".

Fixpoint url_encode (s : string) : string :=
  match s with
  | EmptyString => EmptyString
  | String c t =>
      if Ascii.eqb c " " then String "+" (url_encode t)
      else if unreserved c then String c (url_encode t)
      else String "%" (String (hex_digit (code c / 16))
                         (String (hex_digit (code c mod 16)) (url_encode t)))
  end.

Fixpoint no_nul (s : string) : bool :=
  match s with
  | EmptyString => true
  | String c t => negb (Ascii.eqb c zero) && no_nul t
  end.

Lemma c_str_no_nul (s : string) : no_nul s = true → c_str s = s.
Proof.
  induction s as [|c s IH]; intros H; [done|].
  cbn in *. apply andb_true_iff in H as [Hc H].
  apply negb_true_iff in Hc. rewrite Hc. by rewrite IH.
Qed.

Lemma hex_digits_of_byte (c : ascii) :
  isxdigit (hex_digit (code c / 16)) = true
  ∧ isxdigit (hex_digit (code c mod 16)) = true
  ∧ hex_byte (hex_digit (code c / 16)) (hex_digit (code c mod 16)) = c.
Proof.
  destruct c as [[] [] [] [] [] [] [] []]; vm_compute; done.
Qed.

Lemma unreserved_plain (c : ascii) :
  unreserved c = true → c ≠ "%"%char ∧ c ≠ "+"%char.
Proof. intros H. split; intros ->; vm_compute in H; done. Qed.

(** X7: [url_decode] undoes the form encoding: for every string without a
    NUL, decoding its encoding gives the string back. *)
Theorem url_decode_encode (s : string) :
  no_nul s = true → url_decode (url_encode s) = s.
Proof.
  intros Hs. unfold url_decode.
  assert (H : url_decode_bytes (url_encode s) = s).
  { clear Hs. induction s as [|c s IH]; [done|]. cbn [url_encode].
    destruct (Ascii.eqb c " ") eqn:Hsp.
    { apply Ascii.eqb_eq in Hsp. subst c.
      rewrite url_decode_bytes_plus. by rewrite IH. }
    destruct (unreserved c) eqn:Hun.
    { destruct (unreserved_plain c Hun).
      rewrite url_decode_bytes_plain by done. by rewrite IH. }
    destruct (hex_digits_of_byte c) as (Hhi & Hlo & Hbyte).
    rewrite url_decode_bytes_percent by done. by rewrite Hbyte, IH. }
  rewrite H. by apply c_str_no_nul.
Qed.

Lemma url_decode_encode_witness :
  url_decode (url_encode "p@ss w0rd/%+") = "p@ss w0rd/%+".
Proof. exact (url_decode_encode "p@ss w0rd/%+" eq_refl). Defined.

(** *** What [parse_http_request] writes to its arrays *)

Lemma scan_word_bound (w : nat) : ∀ s : string,
  (strlen (scan_word w s).1 ≤ w)%nat ∧ no_space (scan_word w s).1 = true.
Proof.
  unfold strlen. induction w as [|w IH]; intros [|c t]; cbn; try done.
  { split; [lia|done]. }
  destruct (isspace c) eqn:Hc; cbn; [split; [lia|done]|].
  specialize (IH t). destruct (scan_word w t) as [word rest]. cbn in *.
  rewrite Hc. split; [lia|]. by destruct IH.
Qed.

Lemma parse_headers_bound : ∀ (fuel : nat) (ptr ua auth : string),
  (strlen ua < 255)%nat → (strlen auth < 255)%nat →
  (strlen (parse_headers fuel ptr ua auth).1 < 255
   ∧ strlen (parse_headers fuel ptr ua auth).2 < 255)%nat.
Proof.
  induction fuel as [|fuel IH]; intros ptr ua auth Hua Hauth; [done|].
  assert (Hcopy : ∀ (p : string) (e : nat),
            bool_decide (e < 255)%nat = true →
            (strlen (strncpy p e) < 255)%nat).
  { intros p e He. apply bool_decide_eq_true in He.
    unfold strncpy. rewrite strlen_take. lia. }
  cbn [parse_headers].
  repeat case_match; try done; apply IH; try done; by apply Hcopy.
Qed.

(** X8: whatever the request, [parse_http_request] stays inside the four
    arrays of its caller: the method has at most 15 and the path at most 127
    characters, neither holds white space, and the two header values have
    fewer than 255 characters. *)
Theorem parsed_fields_fit_their_arrays (data : option string)
    (req : request) :
  parse_http_request data = Some req →
  (strlen (method req) ≤ 15 ∧ strlen (path req) ≤ 127
   ∧ strlen (req_user_agent req) < 255
   ∧ strlen (req_authorization req) < 255)%nat
  ∧ no_space (method req) = true ∧ no_space (path req) = true.
Proof.
  unfold parse_http_request. destruct data as [d|]; [|done].
  case_bool_decide; [done|]. unfold sscanf_s_s.
  pose proof (scan_word_bound 15 (skip_ws d)) as Hm.
  destruct (scan_word 15 (skip_ws d)) as [m rest].
  pose proof (scan_word_bound 127 (skip_ws rest)) as Hp.
  destruct (scan_word 127 (skip_ws rest)) as [p rest'].
  pose proof (parse_headers_bound (strlen d) d EmptyString EmptyString
                ltac:(cbn; lia) ltac:(cbn; lia)) as Hh.
  destruct (parse_headers (strlen d) d EmptyString EmptyString) as [ua auth].
  intros [= <-]. cbn in *. intuition.
Qed.

Lemma parsed_fields_fit_their_arrays_witness :
  (strlen "AAAAAAAAAAAAAAA" ≤ 15 ∧ strlen "AAAAA" ≤ 127
   ∧ strlen EmptyString < 255 ∧ strlen EmptyString < 255)%nat
  ∧ no_space "AAAAAAAAAAAAAAA" = true ∧ no_space "AAAAA" = true.
Proof.
  exact (parsed_fields_fit_their_arrays (Some "AAAAAAAAAAAAAAAAAAAA /x")
           (mk_request "AAAAAAAAAAAAAAA" "AAAAA" EmptyString EmptyString)
           eq_refl).
Defined.

(** *** The request line *)

Lemma skip_ws_word (m r : string) :
  no_space m = true → m ≠ EmptyString → skip_ws (m +:+ r) = m +:+ r.
Proof.
  intros Hm Hne. destruct m as [|c m]; [done|]. rewrite app_cons.
  cbn in *. apply andb_true_iff in Hm as [Hc _].
  apply negb_true_iff in Hc. by rewrite Hc.
Qed.

Lemma scan_word_app (c : ascii) (r : string) : ∀ (m : string) (w : nat),
  no_space m = true → (strlen m ≤ w)%nat → isspace c = true →
  scan_word w (m +:+ String c r) = (m, String c r).
Proof.
  unfold strlen.
  induction m as [|x m IH]; intros w Hm Hw Hc.
  - rewrite app_nil. destruct w; cbn; [done|]. by rewrite Hc.
  - destruct w as [|w]; [cbn in Hw; lia|].
    rewrite app_cons. cbn in Hm. apply andb_true_iff in Hm as [Hx Hm].
    apply negb_true_iff in Hx. cbn [scan_word]. rewrite Hx.
    rewrite IH; [done|done|cbn in Hw; lia|done].
Qed.

(** X9: for a request whose first line starts with a method of 1 to 15
    characters, one blank, and a path of 1 to 127 characters followed by
    white space (method and path free of white space), [parse_http_request]
    returns that method and that path. *)
Theorem request_line_is_parsed (m p rest : string) (c : ascii) :
  no_space m = true → (1 ≤ strlen m ≤ 15)%nat →
  no_space p = true → (1 ≤ strlen p ≤ 127)%nat →
  isspace c = true →
  (10 ≤ strlen (m +:+ " " +:+ p +:+ String c rest))%nat →
  ∃ req : request,
    parse_http_request (Some (m +:+ " " +:+ p +:+ String c rest)) = Some req
    ∧ method req = m ∧ path req = p.
Proof.
  intros Hm Hml Hp Hpl Hc Hlen. unfold parse_http_request.
  rewrite bool_decide_eq_false_2 by lia. unfold sscanf_s_s.
  assert (Hmne : m ≠ EmptyString) by (intros ->; cbn in Hml; lia).
  assert (Hpne : p ≠ EmptyString) by (intros ->; cbn in Hpl; lia).
  rewrite skip_ws_word by done.
  change (" " +:+ p +:+ String c rest) with (String " " (p +:+ String c rest)).
  rewrite scan_word_app by (done || lia).
  change (skip_ws (String " " (p +:+ String c rest)))
    with (skip_ws (p +:+ String c rest)).
  rewrite skip_ws_word by done.
  rewrite scan_word_app by (done || lia).
  destruct (parse_headers _ _ _ _) as [ua auth]. by eexists.
Qed.

Lemma request_line_is_parsed_witness :
  ∃ req : request,
    parse_http_request
      (Some ("GET" +:+ " " +:+ "/cgi-bin/../../etc/passwd"
             +:+ String " " ("HTTP/1.0" +:+ CRLF +:+ CRLF)))
    = Some req
    ∧ method req = "GET" ∧ path req = "/cgi-bin/../../etc/passwd".
Proof.
  apply (request_line_is_parsed "GET" "/cgi-bin/../../etc/passwd"
           ("HTTP/1.0" +:+ CRLF +:+ CRLF) " ");
    try reflexivity; vm_compute; lia.
Defined.

(** *** Which pattern wins in [extract_credentials_from_post] *)

(** What a pattern finds in the request: the text between the first
    occurrence of the pattern and the next [&] (or blank, or the end), when
    that text is short enough to be copied. *)
Definition short_value (data pattern : string) : option string :=
  match strstr data pattern with
  | None => None
  | Some found =>
      let start := str_drop (found + strlen pattern) data in
      let len :=
        match strchr start "&" with
        | Some e => e
        | None => match strchr start " " with
                  | Some e => e
                  | None => strlen start
                  end
        end in
      if bool_decide (len < SIZEOF_CHAR_PTR - 1)%nat
      then Some (strncpy start len) else None
  end.

Lemma extract_field_short_value (data pattern field : string) :
  extract_field data pattern field
  = default field (url_decode <$> short_value data pattern).
Proof.
  unfold extract_field, short_value.
  destruct (strstr data pattern); [|done]. by case_bool_decide.
Qed.

Lemma extract_loop_last (data : string) (patterns : list string) :
  ∀ field : string,
    foldl (λ f pattern, extract_field data pattern f) field patterns
    = default field
        (url_decode <$> last (omap (short_value data) patterns)).
Proof.
  induction patterns as [|pattern patterns IH] using rev_ind; intros field;
    [done|].
  rewrite foldl_snoc, omap_app, extract_field_short_value, IH.
  cbn [omap list_omap]. destruct (short_value data pattern) as [v|].
  - by rewrite last_snoc.
  - by rewrite app_nil_r.
Qed.

(** X11: neither loop of [extract_credentials_from_post] stops at its first
    match: the username (the password) that comes out is the decoded value of
    the {e last} of the four patterns, in the order of the table, that occurs
    in the request with a value short enough to be copied; when none does, the
    field is left as it was. *)
Theorem last_pattern_wins (data username password : string) :
  extract_credentials_from_post data username password
  = (default username
       (url_decode <$> last (omap (short_value data) username_patterns)),
     default password
       (url_decode <$> last (omap (short_value data) password_patterns))).
Proof.
  unfold extract_credentials_from_post. by rewrite !extract_loop_last.
Qed.

(** *** The records [log_http_attack] builds *)

Lemma strlen_url_decode (v : string) :
  (strlen (url_decode v) ≤ strlen v)%nat.
Proof.
  unfold url_decode.
  pose proof (strlen_c_str (url_decode_bytes v)).
  pose proof (strlen_url_decode_bytes (strlen v) v ltac:(done)). lia.
Qed.

Lemma short_value_length (data pattern v : string) :
  short_value data pattern = Some v → (strlen v < SIZEOF_CHAR_PTR - 1)%nat.
Proof.
  unfold short_value. destruct (strstr data pattern); [|done].
  case_bool_decide as Hlen; [|done]. intros [= <-].
  unfold strncpy. rewrite strlen_take. lia.
Qed.

Lemma extract_loop_bound (data : string) (n : nat) (patterns : list string) :
  ∀ field : string,
    (SIZEOF_CHAR_PTR - 1 ≤ n)%nat → (strlen field < n)%nat →
    (strlen (foldl (λ f pattern, extract_field data pattern f) field patterns)
     < n)%nat.
Proof.
  induction patterns as [|pattern patterns IH]; intros field Hn Hf; [done|].
  cbn [foldl]. apply IH; [done|].
  rewrite extract_field_short_value.
  destruct (short_value data pattern) as [v|] eqn:Hv; [|done].
  apply short_value_length in Hv. pose proof (strlen_url_decode v).
  change (default field (url_decode <$> Some v)) with (url_decode v). lia.
Qed.

Section WithHash.

Variable generate_md5_hash : string → string.

(** X10: every record [log_http_attack] builds is well formed, whatever the
    request: with a digest function that returns at most 32 characters and a
    port that is a [uint16_t], each string field fits its array and the
    service is [HTTP]; so [attack_logger_format_json] turns the record into
    JSON without error in any buffer of more than [JSON_MAX_LENGTH] bytes. *)
Theorem http_record_is_well_formed (client_ip : string) (port : Z)
    (meth pth ua auth payload : string)
    (payload_len : nat) (now : Z) :
  (∀ bytes : string, (strlen (generate_md5_hash bytes) ≤ 32)%nat) →
  (0 ≤ port < 65536)%Z →
  let entry := http_log_entry generate_md5_hash client_ip port meth pth
                 ua auth payload payload_len now in
  JsonFacts.fields_fit entry
  ∧ service entry = "HTTP"
  ∧ ∀ (tz_offset : Z) (old : string) (buffer_size : nat),
      (JsonFacts.JSON_MAX_LENGTH < buffer_size)%nat →
      AttackLogger.attack_logger_format_json tz_offset (Some entry)
        (Some old) buffer_size
      = (ESP_OK,
         Some (AttackLogger.json_text
                 (AttackLogger.json_time_str tz_offset entry) entry)).
Proof.
  intros Hmd5 Hport entry.
  assert (Hfit : JsonFacts.fields_fit entry).
  { subst entry. unfold http_log_entry.
    assert (Huser : (strlen (strncpy "N/A" (USERNAME_SIZE - 1)) < 64)%nat)
      by (vm_compute; lia).
    assert (Hpass :
      (strlen (if bool_decide (auth ≠ EmptyString)
               then strncpy auth (PASSWORD_SIZE - 1)
               else strncpy "N/A" (PASSWORD_SIZE - 1)) < 64)%nat).
    { case_bool_decide; [|vm_compute; lia].
      unfold strncpy. rewrite strlen_take. unfold PASSWORD_SIZE. lia. }
    set (user0 := strncpy "N/A" (USERNAME_SIZE - 1)) in *.
    set (pass0 := if bool_decide (auth ≠ EmptyString) then _ else _)
      in *.
    assert (Hcred :
      ∀ up : string * string,
        up = (if strcmp_eq meth "POST"
              then extract_credentials_from_post (c_str payload) user0 pass0
              else (user0, pass0)) →
        (strlen up.1 < 64 ∧ strlen up.2 < 64)%nat).
    { intros up ->. destruct (strcmp_eq meth "POST"); [|done].
      unfold extract_credentials_from_post. cbn [fst snd].
      split; apply extract_loop_bound; (done || unfold SIZEOF_CHAR_PTR; lia). }
    destruct (if strcmp_eq meth "POST" then _ else _) as [u p] eqn:Hup.
    destruct (Hcred (u, p) eq_refl) as [Hu Hp]. cbn [fst snd] in Hu, Hp.
    unfold JsonFacts.fields_fit.
    cbn [source_ip service username password user_agent payload_hash
         metadata target_port].
    unfold strncpy, snprintf. cbn [fst].
    rewrite !strlen_take.
    pose proof (Hmd5 (str_take (if bool_decide (512 < payload_len)%nat
                                then 512%nat else payload_len) payload)).
    unfold SOURCE_IP_SIZE, SERVICE_SIZE, USERNAME_SIZE, PASSWORD_SIZE,
      USER_AGENT_SIZE, PAYLOAD_HASH_SIZE, METADATA_SIZE.
    rewrite (bool_decide_eq_false_2 (256 = 0)%nat) by lia.
    rewrite strlen_take.
    change (strlen "HTTP") with 4%nat.
    repeat split; lia. }
  split; [exact Hfit|]. split.
  { subst entry. unfold http_log_entry.
    by destruct (if strcmp_eq meth "POST" then _ else _). }
  intros tz_offset old buffer_size Hsize.
  rewrite JsonFacts.format_json_result.
  pose proof (JsonFacts.json_text_bound tz_offset entry Hfit).
  rewrite bool_decide_eq_true_2 by lia. reflexivity.
Qed.

End WithHash.

Lemma http_record_is_well_formed_witness :
  JsonFacts.fields_fit
    (http_log_entry sample_md5 "203.0.113.250" 8080 "POST" "/login"
       "curl/7.81" EmptyString scenario1_request 119 1700000000).
Proof.
  exact (proj1 (http_record_is_well_formed sample_md5 "203.0.113.250" 8080
                  "POST" "/login" "curl/7.81" EmptyString scenario1_request
                  119 1700000000
                  (λ _, ltac:(vm_compute; lia)) ltac:(lia))).
Defined.

End HttpExtras.

(** ** The supervisor: counters, task state, configuration *)

Module HoneypotExtras.
Import Honeypot HoneypotFacts.

Definition is_accepted (op : honeypot_op) : bool :=
  match op with OpIncoming true true true => true | _ => false end.

Definition is_denied (op : honeypot_op) : bool :=
  match op with OpIncoming false _ _ => true | _ => false end.

Definition count_ops (P : honeypot_op → bool) (ops : list honeypot_op) : nat :=
  length (filter (λ op, P op = true) ops).

Lemma rate_limited_step (h : honeypot) (op : honeypot_op) :
  rate_limited (stats (honeypot_step h op))
  = match op with
    | OpResetStats _ => 0%Z
    | OpIncoming false _ _ => u32_incr (rate_limited (stats h))
    | _ => rate_limited (stats h)
    end.
Proof.
  destruct op as [ok loaded rl now|created| | |now|[c|]| |r c a| |port];
    cbn [honeypot_step]; try done.
  - unfold honeypot_init.
    destruct (AttackLogger.attack_logger_init ok loaded now (logger h))
      as [err lg].
    destruct err; cbn; try done. by destruct rl.
  - unfold honeypot_start. by repeat case_match.
  - unfold honeypot_stop. by repeat case_match.
  - unfold handle_incoming_connection. by destruct r, c, a.
  - unfold update_statistics. cbn. by repeat case_match.
Qed.

Lemma u32_incr_count (x : Z) (n : nat) :
  ((u32_incr x + Z.of_nat n) mod UINT32_MOD
   = (x + Z.of_nat (S n)) mod UINT32_MOD)%Z.
Proof.
  unfold u32_incr. rewrite Zplus_mod_idemp_l. f_equal. lia.
Qed.

Lemma counters_run (mid : list honeypot_op) : ∀ h : honeypot,
  forallb (λ op, negb (is_reset op)) mid = true →
  (0 ≤ total_connections (stats h) < UINT32_MOD)%Z →
  (0 ≤ rate_limited (stats h) < UINT32_MOD)%Z →
  total_connections (stats (honeypot_run h mid))
  = ((total_connections (stats h) + Z.of_nat (count_ops is_accepted mid))
     mod UINT32_MOD)%Z
  ∧ rate_limited (stats (honeypot_run h mid))
    = ((rate_limited (stats h) + Z.of_nat (count_ops is_denied mid))
       mod UINT32_MOD)%Z.
Proof.
  unfold count_ops.
  induction mid as [|op mid IH]; intros h Hmid Ht Hr.
  { cbn. rewrite !Z.add_0_r, !Z.mod_small; done. }
  cbn in Hmid. apply andb_true_iff in Hmid as [Hop Hmid].
  cbn [honeypot_run foldl]. fold (honeypot_run (honeypot_step h op) mid).
  pose proof (total_connections_step h op) as Hts.
  pose proof (rate_limited_step h op) as Hrs.
  assert (Hu : ∀ x, (0 ≤ u32_incr x < UINT32_MOD)%Z).
  { intros x. unfold u32_incr. by apply Z.mod_pos_bound. }
  destruct (IH (honeypot_step h op) Hmid) as [IHt IHr].
  { rewrite Hts. destruct op as [| | | | | | |[] [] []| |]; try done;
      apply Hu. }
  { rewrite Hrs. destruct op as [| | | | | | |[] [] []| |]; try done;
      apply Hu. }
  rewrite IHt, IHr, Hts, Hrs.
  destruct op as [| | | | | | |[] [] []| |]; try done;
    rewrite ?filter_cons_True, ?filter_cons_False by done;
    cbn [length]; rewrite ?u32_incr_count; done.
Qed.

(** X12: after [honeypot_reset_stats] (and from power-on), as long as the
    statistics are not reset again, [total_connections] is the number of
    connections [handle_incoming_connection] admitted and [rate_limited] the
    number it turned away on the rate limiter's word, both modulo 2^32; a
    connection refused for lack of room, or one the socket manager could not
    add, is counted by neither. *)
Theorem connections_are_counted (pre mid : list honeypot_op) (now : Z) :
  forallb (λ op, negb (is_reset op)) mid = true →
  let after_reset :=
    stats (honeypot_run honeypot_boot (pre ++ OpResetStats now :: mid)) in
  let from_boot := stats (honeypot_run honeypot_boot mid) in
  (total_connections after_reset
   = Z.of_nat (count_ops is_accepted mid) mod UINT32_MOD
   ∧ rate_limited after_reset
     = Z.of_nat (count_ops is_denied mid) mod UINT32_MOD
   ∧ total_connections from_boot
     = Z.of_nat (count_ops is_accepted mid) mod UINT32_MOD
   ∧ rate_limited from_boot
     = Z.of_nat (count_ops is_denied mid) mod UINT32_MOD)%Z.
Proof.
  intros Hmid after_reset from_boot. subst after_reset from_boot.
  unfold honeypot_run at 1 2. rewrite foldl_app. cbn [foldl].
  fold (honeypot_run honeypot_boot pre).
  fold (honeypot_run
          (honeypot_step (honeypot_run honeypot_boot pre) (OpResetStats now))
          mid).
  destruct (counters_run mid
              (honeypot_step (honeypot_run honeypot_boot pre)
                 (OpResetStats now)) Hmid) as [H1 H2]; [by cbn..|].
  destruct (counters_run mid honeypot_boot Hmid) as [H3 H4]; [by cbn..|].
  rewrite H1, H2, H3, H4. cbn [honeypot_step honeypot_reset_stats snd
    set_stats stats total_connections rate_limited honeypot_boot stats_zero].
  done.
Qed.

Lemma connections_are_counted_witness :
  total_connections
    (stats (honeypot_run honeypot_boot
              ([OpIncoming true true true]
               ++ OpResetStats 50
                  :: [OpIncoming true true true; OpIncoming false true true;
                      OpIncoming true false true; OpIncoming true true false;
                      OpIncoming true true true])))
  = 2%Z.
Proof.
  exact (proj1 (connections_are_counted [OpIncoming true true true]
                  [OpIncoming true true true; OpIncoming false true true;
                   OpIncoming true false true; OpIncoming true true false;
                   OpIncoming true true true] 50 eq_refl)).
Defined.

(** The ports of [utils/config.h] that [update_statistics] tells apart. *)
Definition known_port (port : Z) : bool :=
  bool_decide (port ∈ [80; 8080; 23; 2323; 21; 1883]%Z).

Definition known_update (op : honeypot_op) : bool :=
  match op with OpUpdateStatistics port => known_port port | _ => true end.

Definition is_update (op : honeypot_op) : bool :=
  match op with OpUpdateStatistics _ => true | _ => false end.

Definition attack_sum (st : honeypot_stats_t) : Z :=
  (http_attacks st + telnet_attacks st + ftp_attacks st + mqtt_attacks st)%Z.

Lemma attack_counters_step (h : honeypot) (op : honeypot_op) :
  is_update op = false →
  (attacks_logged (stats (honeypot_step h op)) = 0%Z
   ∧ http_attacks (stats (honeypot_step h op)) = 0%Z
   ∧ telnet_attacks (stats (honeypot_step h op)) = 0%Z
   ∧ ftp_attacks (stats (honeypot_step h op)) = 0%Z
   ∧ mqtt_attacks (stats (honeypot_step h op)) = 0%Z)
  ∨ (attacks_logged (stats (honeypot_step h op)) = attacks_logged (stats h)
     ∧ http_attacks (stats (honeypot_step h op)) = http_attacks (stats h)
     ∧ telnet_attacks (stats (honeypot_step h op)) = telnet_attacks (stats h)
     ∧ ftp_attacks (stats (honeypot_step h op)) = ftp_attacks (stats h)
     ∧ mqtt_attacks (stats (honeypot_step h op)) = mqtt_attacks (stats h)).
Proof.
  intros Hop.
  destruct op as [ok loaded rl now|created| | |now|[c|]| |r c a| |port];
    cbn [honeypot_step]; try done; try (by right); try (by left).
  - right. unfold honeypot_init.
    destruct (AttackLogger.attack_logger_init ok loaded now (logger h))
      as [err lg].
    destruct err; cbn; try done. by destruct rl.
  - right. unfold honeypot_start. by repeat case_match.
  - right. unfold honeypot_stop. by repeat case_match.
  - right. unfold handle_incoming_connection. by destruct r, c, a.
Qed.

Lemma attack_sum_update (port : Z) (h : honeypot) :
  known_port port = true →
  (attacks_logged (stats h) = attack_sum (stats h) mod UINT32_MOD)%Z →
  (attacks_logged (stats (update_statistics port h))
   = attack_sum (stats (update_statistics port h)) mod UINT32_MOD)%Z.
Proof.
  intros Hport Hinv. unfold known_port in Hport.
  apply bool_decide_eq_true in Hport.
  unfold update_statistics, attack_sum in *.
  cbn [set_stats stats].
  assert (Hl : ∀ x rest : Z,
    (u32_incr ((x + rest) mod UINT32_MOD)
     = (u32_incr x + rest) mod UINT32_MOD)%Z).
  { intros x rest. unfold u32_incr.
    rewrite Zplus_mod_idemp_l, (Zplus_mod_idemp_l (x + 1)). f_equal. lia. }
  rewrite Hinv.
  repeat (apply elem_of_cons in Hport as [->|Hport]);
    [..|by apply elem_of_nil in Hport];
    repeat first [ rewrite bool_decide_eq_true_2 by done
                 | rewrite bool_decide_eq_false_2 by done ];
    cbn [orb attacks_logged http_attacks telnet_attacks ftp_attacks
         mqtt_attacks].
  all: set (hh := http_attacks (stats h)); set (tt := telnet_attacks (stats h));
    set (ff := ftp_attacks (stats h)); set (mm := mqtt_attacks (stats h)).
  all: match goal with
       | |- u32_incr (?a mod _)%Z = (?b mod _)%Z =>
           first
             [ replace a with (hh + (tt + ff + mm))%Z by lia;
               replace b with (u32_incr hh + (tt + ff + mm))%Z by lia
             | replace a with (tt + (hh + ff + mm))%Z by lia;
               replace b with (u32_incr tt + (hh + ff + mm))%Z by lia
             | replace a with (ff + (hh + tt + mm))%Z by lia;
               replace b with (u32_incr ff + (hh + tt + mm))%Z by lia
             | replace a with (mm + (hh + tt + ff))%Z by lia;
               replace b with (u32_incr mm + (hh + tt + ff))%Z by lia ];
           apply Hl
       end.
Qed.

Definition counters_add_up (h : honeypot) : Prop :=
  (attacks_logged (stats h) = attack_sum (stats h) mod UINT32_MOD)%Z.

Definition no_attack_counted (h : honeypot) : Prop :=
  attacks_logged (stats h) = 0%Z ∧ http_attacks (stats h) = 0%Z
  ∧ telnet_attacks (stats h) = 0%Z ∧ ftp_attacks (stats h) = 0%Z
  ∧ mqtt_attacks (stats h) = 0%Z.

Lemma counters_add_up_run (ops : list honeypot_op) : ∀ h : honeypot,
  counters_add_up h → forallb known_update ops = true →
  counters_add_up (honeypot_run h ops).
Proof.
  induction ops as [|op ops IH]; intros h Hinv Hops; [done|].
  cbn in Hops. apply andb_true_iff in Hops as [Hop Hops].
  cbn [honeypot_run foldl]. apply IH; [|done].
  destruct (is_update op) eqn:Hup.
  - destruct op; try done. by apply attack_sum_update.
  - unfold counters_add_up, attack_sum in *.
    destruct (attack_counters_step h op Hup)
      as [(-> & -> & -> & -> & ->)|(-> & -> & -> & -> & ->)]; done.
Qed.

Lemma no_attack_counted_run (ops : list honeypot_op) : ∀ h : honeypot,
  no_attack_counted h → forallb (λ op, negb (is_update op)) ops = true →
  no_attack_counted (honeypot_run h ops).
Proof.
  induction ops as [|op ops IH]; intros h Hinv Hops; [done|].
  cbn in Hops. apply andb_true_iff in Hops as [Hop Hops].
  apply negb_true_iff in Hop.
  cbn [honeypot_run foldl]. apply IH; [|done].
  unfold no_attack_counted in *.
  destruct Hinv as (H1 & H2 & H3 & H4 & H5).
  destruct (attack_counters_step h op Hop)
    as [(-> & -> & -> & -> & ->)|(-> & -> & -> & -> & ->)]; done.
Qed.

(** X13: as long as [update_statistics] is called for the ports of the
    default configuration only (80, 8080, 23, 2323, 21, 1883), the counter
    [attacks_logged] is the sum of the four per-protocol counters modulo
    2^32, in every state reached from power-on; the five counters change in
    [update_statistics] and [honeypot_reset_stats] only, so that a run in
    which [update_statistics] is never called leaves all of them at 0. *)
Theorem attack_counters_add_up (ops : list honeypot_op) :
  forallb known_update ops = true →
  let st := stats (honeypot_run honeypot_boot ops) in
  (attacks_logged st = attack_sum st mod UINT32_MOD)%Z
  ∧ (forallb (λ op, negb (is_update op)) ops = true →
     attacks_logged st = 0%Z ∧ attack_sum st = 0%Z).
Proof.
  intros Hops st. subst st. split.
  - by apply counters_add_up_run.
  - intros Hno.
    destruct (no_attack_counted_run ops honeypot_boot) as (H1 & H2 & H3 & H4 & H5);
      [done|done|].
    unfold attack_sum. rewrite H1, H2, H3, H4, H5. done.
Qed.

Lemma attack_counters_add_up_witness :
  attacks_logged
    (stats (honeypot_run honeypot_boot
              [OpUpdateStatistics 80; OpUpdateStatistics 2323;
               OpIncoming true true true; OpUpdateStatistics 1883]))
  = (attack_sum
       (stats (honeypot_run honeypot_boot
                 [OpUpdateStatistics 80; OpUpdateStatistics 2323;
                  OpIncoming true true true; OpUpdateStatistics 1883]))
     mod UINT32_MOD)%Z
  ∧ attacks_logged
      (stats (honeypot_run honeypot_boot
                [OpIncoming true true true; OpCleanup; OpStart true]))
    = 0%Z.
Proof.
  split.
  - exact (proj1 (attack_counters_add_up
                    [OpUpdateStatistics 80; OpUpdateStatistics 2323;
                     OpIncoming true true true; OpUpdateStatistics 1883]
                    eq_refl)).
  - exact (proj1 (proj2 (attack_counters_add_up
                           [OpIncoming true true true; OpCleanup;
                            OpStart true] eq_refl) eq_refl)).
Defined.

(** *** The task *)

Lemma task_handle_step (h : honeypot) (op : honeypot_op) :
  honeypot_task_handle h = honeypot_running h →
  honeypot_task_handle (honeypot_step h op)
  = honeypot_running (honeypot_step h op).
Proof.
  intros Hinv.
  destruct op as [ok loaded rl now|created| | |now|[c|]| |r c a| |port];
    cbn [honeypot_step]; try done.
  - unfold honeypot_init.
    destruct (AttackLogger.attack_logger_init ok loaded now (logger h))
      as [err lg].
    destruct err; cbn; try done. by destruct rl.
  - unfold honeypot_start.
    destruct (honeypot_running h) eqn:Hr, created; cbn; congruence.
  - unfold honeypot_stop.
    destruct (honeypot_running h) eqn:Hr; cbn; congruence.
  - unfold handle_incoming_connection. by destruct r, c, a.
Qed.

(** X14: in every state reached from power-on the flag [honeypot_running]
    says whether the task handle is set; [honeypot_start] on a running
    honeypot returns [ESP_OK] without creating a second task (the state is
    unchanged whatever [xTaskCreate] would have answered), and
    [honeypot_stop] after [honeypot_start] leaves the state that
    [honeypot_stop] alone leaves. *)
Theorem running_flag_tracks_task (ops : list honeypot_op)
    (created created' : bool) :
  let h := honeypot_run honeypot_boot ops in
  honeypot_task_handle h = honeypot_running h
  ∧ honeypot_start created' (honeypot_start true h).2
    = (ESP_OK, (honeypot_start true h).2)
  ∧ (honeypot_stop (honeypot_start created h).2).2 = (honeypot_stop h).2.
Proof.
  intros h.
  assert (Hinv : honeypot_task_handle h = honeypot_running h).
  { subst h. generalize honeypot_boot (eq_refl : honeypot_task_handle
      honeypot_boot = honeypot_running honeypot_boot).
    induction ops as [|op ops IH]; intros h0 H0; [done|].
    cbn [honeypot_run foldl]. apply IH. by apply task_handle_step. }
  split; [done|]. clearbody h.
  destruct h as [cfg st handle running lg]. cbn in Hinv. subst handle.
  unfold honeypot_start, honeypot_stop.
  destruct running, created; cbn; done.
Qed.

(** *** The configuration *)

Definition config_set_by (op : honeypot_op) : option honeypot_config_t :=
  match op with OpSetConfig (Some c) => Some c | _ => None end.

Lemma current_config_step (h : honeypot) (op : honeypot_op) :
  current_config (honeypot_step h op)
  = default (current_config h) (config_set_by op).
Proof.
  destruct op as [ok loaded rl now|created| | |now|[c|]| |r c a| |port];
    cbn [honeypot_step config_set_by default]; try done.
  - unfold honeypot_init.
    destruct (AttackLogger.attack_logger_init ok loaded now (logger h))
      as [err lg].
    destruct err; cbn; try done. by destruct rl.
  - unfold honeypot_start.
    by destruct (honeypot_running h), created.
  - unfold honeypot_stop. by destruct (honeypot_running h).
  - unfold handle_incoming_connection. by destruct r, c, a.
Qed.

(** X15: [honeypot_get_config] returns the configuration passed to the last
    [honeypot_set_config] that got a configuration ([NULL] is refused and
    changes nothing), or the built-in default when there was none; no other
    operation, [honeypot_init] and [honeypot_reset_stats] included, touches
    it, and it is stored without any check. *)
Theorem config_is_the_last_one_set (ops : list honeypot_op)
    (out : honeypot_config_t) :
  honeypot_get_config (Some out) (honeypot_run honeypot_boot ops)
  = (ESP_OK,
     Some (default (current_config honeypot_boot)
             (last (omap config_set_by ops)))).
Proof.
  unfold honeypot_get_config. do 2 f_equal.
  induction ops as [|op ops IH] using rev_ind; [done|].
  unfold honeypot_run in *. rewrite foldl_snoc, omap_app.
  rewrite current_config_step, IH. cbn [omap list_omap].
  destruct (config_set_by op) as [c|].
  - by rewrite last_snoc.
  - by rewrite app_nil_r.
Qed.

End HoneypotExtras.
